(** * FROST-BIP340: the signature aggregator ([src/frost/aggregator.py])

    A shallow embedding of the [Aggregator] class and of the Python built-ins
    it calls, followed by the properties of the aggregation stage: index
    validation, the binding value, the group commitment, the BIP340
    challenge hash and the final signature. *)

From Stdlib Require Import ZArith List Lia Bool.
From Stdlib.Strings Require Import String Ascii Byte.
From Stdlib Require Import Permutation.
Import ListNotations.

Local Open Scope Z_scope.

(** ** Python values used by the aggregator *)

(** A Python [bytes] object. *)
Definition bytes := list byte.

(** The exceptions the aggregator can raise.  The three [ValueError]s are the
    three [raise] statements of the module; the f-string messages are kept as
    the offending index they print. *)
Inductive exn : Type :=
| ValueError_participant_index (index : Z)
    (* group_commitment: "Participant index {index} is out of range." *)
| ValueError_must_start_from_1
    (* binding_value: "Participant index must start from 1." *)
| ValueError_nonce_commitments (idx : Z)
    (* binding_value: "Index {idx} is out of range for nonce commitments." *)
| OverflowError
    (* int.to_bytes: the integer does not fit the requested length *)
| IndexError.
    (* tuple subscript out of range *)

(** The specification calls every [ValueError] of this module
    [IndexOutOfRange]. *)
Definition is_IndexOutOfRange (e : exn) : bool :=
  match e with
  | ValueError_participant_index _
  | ValueError_must_start_from_1
  | ValueError_nonce_commitments _ => true
  | OverflowError | IndexError => false
  end.

(** A computation that returns a value or raises. *)
Inductive result (A : Type) : Type :=
| Ok (a : A)
| Raise (e : exn).
Arguments Ok {A} a.
Arguments Raise {A} e.

Definition bind {A B : Type} (m : result A) (k : A -> result B) : result B :=
  match m with
  | Ok a => k a
  | Raise e => Raise e
  end.

Notation "x <- m ;; k" := (bind m (fun x => k))
  (at level 61, m at next level, right associativity).
Notation "' p <- m ;; k" := (bind m (fun p => k))
  (at level 61, p pattern, m at next level, right associativity).

Module Py.

Definition Z_of_byte (b : byte) : Z := Z.of_N (Byte.to_N b).

(** The byte whose value is [z mod 256]. *)
Definition byte_of_Z (z : Z) : byte :=
  match Byte.of_N (Z.to_N (z mod 256)) with
  | Some b => b
  | None => x00
  end.

(** Big-endian digits of [z], [len] of them, most significant first. *)
Fixpoint be_bytes (len : nat) (z : Z) : bytes :=
  match len with
  | O => []
  | S len' => byte_of_Z (z / 256 ^ Z.of_nat len') :: be_bytes len' z
  end.

(** [z.to_bytes(len, "big")], unsigned: a negative integer or one that
    needs more than [len] bytes raises [OverflowError]. *)
Definition int_to_bytes (z : Z) (len : nat) : result bytes :=
  if z <? 0 then Raise OverflowError
  else if 256 ^ Z.of_nat len <=? z then Raise OverflowError
  else Ok (be_bytes len z).

(** [int.from_bytes(bs, "big")]. *)
Definition int_from_bytes (bs : bytes) : Z :=
  fold_left (fun acc b => acc * 256 + Z_of_byte b) bs 0.

(** [b"".join(parts)]. *)
Definition bytes_join (parts : list bytes) : bytes := List.concat parts.

(** [len(t)] as a Python integer. *)
Definition len {A : Type} (t : list A) : Z := Z.of_nat (List.length t).

(** [t[i]] on a tuple: a negative subscript counts from the end, a
    subscript outside the tuple raises [IndexError]. *)
Definition tuple_getitem {A : Type} (t : list A) (i : Z) : result A :=
  let j := if i <? 0 then i + len t else i in
  if (j <? 0) || (len t <=? j) then Raise IndexError
  else match nth_error t (Z.to_nat j) with
       | Some a => Ok a
       | None => Raise IndexError
       end.

(** [sum(t)]: left to right, from 0. *)
Definition sum (t : list Z) : Z := fold_left Z.add t 0.

Definition hex_digit (n : Z) : ascii :=
  if n <? 10 then ascii_of_nat (Z.to_nat (48 + n))
  else ascii_of_nat (Z.to_nat (87 + n)).

(** [bs.hex()]: two lowercase hexadecimal digits per byte. *)
Fixpoint hex (bs : bytes) : string :=
  match bs with
  | [] => EmptyString
  | b :: bs' =>
      String (hex_digit (Z_of_byte b / 16))
        (String (hex_digit (Z_of_byte b mod 16)) (hex bs'))
  end.

Definition unhex_digit (c : ascii) : option Z :=
  let n := Z.of_nat (nat_of_ascii c) in
  if (48 <=? n) && (n <=? 57) then Some (n - 48)
  else if (97 <=? n) && (n <=? 102) then Some (n - 87)
  else None.

(** [bytes.fromhex] restricted to what [hex] produces: lowercase digits,
    no white space. *)
Fixpoint fromhex (s : string) : option bytes :=
  match s with
  | EmptyString => Some []
  | String c1 (String c2 s') =>
      match unhex_digit c1, unhex_digit c2, fromhex s' with
      | Some h, Some l, Some bs => Some (byte_of_Z (16 * h + l) :: bs)
      | _, _, _ => None
      end
  | String _ EmptyString => None
  end.

(** A character of a lowercase hexadecimal string. *)
Definition is_lower_hex (c : ascii) : bool :=
  match unhex_digit c with Some _ => true | None => false end.

Fixpoint string_forallb (p : ascii -> bool) (s : string) : bool :=
  match s with
  | EmptyString => true
  | String c s' => p c && string_forallb p s'
  end.

End Py.

(** ** [hashlib.sha256] (FIPS 180-4) *)

Module SHA256.

Definition w32 (x : Z) : Z := x mod 2 ^ 32.
Definition add32 (x y : Z) : Z := w32 (x + y).
Definition rotr (n x : Z) : Z :=
  Z.lor (Z.shiftr x n) (w32 (Z.shiftl x (32 - n))).
Definition not32 (x : Z) : Z := Z.lxor x 0xffffffff.

Definition Ch (x y z : Z) : Z := Z.lxor (Z.land x y) (Z.land (not32 x) z).
Definition Maj (x y z : Z) : Z :=
  Z.lxor (Z.lxor (Z.land x y) (Z.land x z)) (Z.land y z).
Definition Sigma0 (x : Z) : Z :=
  Z.lxor (Z.lxor (rotr 2 x) (rotr 13 x)) (rotr 22 x).
Definition Sigma1 (x : Z) : Z :=
  Z.lxor (Z.lxor (rotr 6 x) (rotr 11 x)) (rotr 25 x).
Definition sigma0 (x : Z) : Z :=
  Z.lxor (Z.lxor (rotr 7 x) (rotr 18 x)) (Z.shiftr x 3).
Definition sigma1 (x : Z) : Z :=
  Z.lxor (Z.lxor (rotr 17 x) (rotr 19 x)) (Z.shiftr x 10).

(** The first sixty-four primes. *)
Definition primes : list Z :=
  [ 2; 3; 5; 7; 11; 13; 17; 19;
    23; 29; 31; 37; 41; 43; 47; 53;
    59; 61; 67; 71; 73; 79; 83; 89;
    97; 101; 103; 107; 109; 113; 127; 131;
    137; 139; 149; 151; 157; 163; 167; 173;
    179; 181; 191; 193; 197; 199; 211; 223;
    227; 229; 233; 239; 241; 251; 257; 263;
    269; 271; 277; 281; 283; 293; 307; 311 ].

(** The integer cube root, bit by bit from bit [bits - 1] down: the largest
    [r] below [2 ^ bits] with [r ^ 3 <= n]. *)
Fixpoint cube_root_bits (bits : nat) (n r : Z) : Z :=
  match bits with
  | O => r
  | S b =>
      let r' := r + 2 ^ Z.of_nat b in
      cube_root_bits b n (if r' * r' * r' <=? n then r' else r)
  end.

Definition cube_root (n : Z) : Z := cube_root_bits 40 n 0.

(** The round constants: the first 32 bits of the fractional part of the
    cube root of each prime. *)
Definition K : list Z :=
  map (fun p => w32 (cube_root (p * 2 ^ 96))) primes.

(** The eight working variables / the chaining value. *)
Record state : Type := State {
  ha : Z; hb : Z; hc : Z; hd : Z; he : Z; hf : Z; hg : Z; hh : Z }.

(** The initial chaining value: the first 32 bits of the fractional part of
    the square root of each of the first eight primes. *)
Definition H0 : state :=
  let h i := w32 (Z.sqrt (nth i primes 0 * 2 ^ 64)) in
  State (h 0%nat) (h 1%nat) (h 2%nat) (h 3%nat)
        (h 4%nat) (h 5%nat) (h 6%nat) (h 7%nat).

(** One round with round constant [k] and schedule word [w]. *)
Definition round (s : state) (k w : Z) : state :=
  let t1 := w32 (hh s + Sigma1 (he s) + Ch (he s) (hf s) (hg s) + k + w) in
  let t2 := w32 (Sigma0 (ha s) + Maj (ha s) (hb s) (hc s)) in
  State (add32 t1 t2) (ha s) (hb s) (hc s) (add32 (hd s) t1)
        (he s) (hf s) (hg s).

(** The schedule is kept as a window of the last sixteen words: the head
    is [W t], the word appended is [W (t+16)]. *)
Definition next_window (win : list Z) : list Z :=
  let w i := nth i win 0 in
  tl win ++ [w32 (sigma1 (w 14%nat) + w 9%nat + sigma0 (w 1%nat) + w 0%nat)].

Fixpoint rounds (ks : list Z) (win : list Z) (s : state) : state :=
  match ks with
  | [] => s
  | k :: ks' => rounds ks' (next_window win) (round s k (nth 0 win 0))
  end.

(** Big-endian 32-bit words of a block. *)
Fixpoint words (bs : bytes) : list Z :=
  match bs with
  | b0 :: b1 :: b2 :: b3 :: bs' =>
      Py.int_from_bytes [b0; b1; b2; b3] :: words bs'
  | _ => []
  end.

Definition compress (s : state) (block : bytes) : state :=
  let r := rounds K (words block) s in
  State (add32 (ha s) (ha r)) (add32 (hb s) (hb r))
        (add32 (hc s) (hc r)) (add32 (hd s) (hd r))
        (add32 (he s) (he r)) (add32 (hf s) (hf r))
        (add32 (hg s) (hg r)) (add32 (hh s) (hh r)).

(** Padding: the bit 1, zeros up to 56 mod 64 bytes, the bit length on
    eight bytes. *)
Definition pad (msg : bytes) : bytes :=
  let l := Py.len msg in
  let zeros := Z.to_nat ((55 - l) mod 64) in
  msg ++ x80 :: repeat x00 zeros ++ Py.be_bytes 8 (8 * l).

Fixpoint blocks (n : nat) (bs : bytes) (s : state) : state :=
  match n with
  | O => s
  | S n' => blocks n' (skipn 64 bs) (compress s (firstn 64 bs))
  end.

Definition state_bytes (s : state) : bytes :=
  Py.be_bytes 4 (ha s) ++ Py.be_bytes 4 (hb s) ++
  Py.be_bytes 4 (hc s) ++ Py.be_bytes 4 (hd s) ++
  Py.be_bytes 4 (he s) ++ Py.be_bytes 4 (hf s) ++
  Py.be_bytes 4 (hg s) ++ Py.be_bytes 4 (hh s).

(** The 32-byte digest of a message. *)
Definition digest_of (msg : bytes) : bytes :=
  let padded := pad msg in
  state_bytes (blocks (List.length padded / 64) padded H0).

(** A hash object: [hashlib] feeds the compression function as data
    arrives; what [digest()] returns is the digest of everything passed
    to the constructor and to [update], in order. *)
Record hash : Type := Hash { fed : bytes }.

Definition new (data : bytes) : hash := Hash data.
Definition update (h : hash) (data : bytes) : hash := Hash (fed h ++ data).
Definition digest (h : hash) : bytes := digest_of (fed h).

End SHA256.

Definition ascii_bytes (s : string) : bytes := list_byte_of_string s.

(** ** The curve collaborator ([frost/point.py], [frost/constants.py]) *)

(** Modelled from the spec: the constant [Q] of [frost/constants.py], which
    is imported by the aggregator and is not part of the sources at hand.
    The specification fixes it as the group order, "a fixed large prime",
    the order of secp256k1 for BIP340 compatibility. *)
Definition Q : Z :=
  0xFFFFFFFFFFFFFFFFFFFFFFFFFFFFFFFEBAAEDCE6AF48A03BBFD25E8CD0364141.

(** Modelled from the spec: the class [Point] of [frost/point.py], which is
    imported by the aggregator and is not part of the sources at hand.  The
    specification treats it as a collaborator with the capability set
    identity, addition, scalar multiplication, full ("SEC") serialization
    and x-only serialization, all of them total. *)
Class PointOps (Point : Type) : Type := {
  point_infinity : Point;                     (* Point() *)
  point_add : Point -> Point -> Point;        (* Point.__add__ *)
  point_rmul : Z -> Point -> Point;           (* Point.__rmul__: k * P *)
  sec_serialize : Point -> bytes;             (* Point.sec_serialize *)
  xonly_serialize : Point -> bytes            (* Point.xonly_serialize *)
}.

(** What the specification says of the collaborator: the x-only form has
    32 bytes. *)
Class XOnly32 (Point : Type) `{PointOps Point} : Prop :=
  xonly_serialize_length :
    forall P : Point, List.length (xonly_serialize P) = 32%nat.

(** "Curve addition is commutative and associative." *)
Class AbelianAdd (Point : Type) `{PointOps Point} : Prop := {
  point_add_comm : forall P R : Point, point_add P R = point_add R P;
  point_add_assoc :
    forall P R S : Point,
      point_add P (point_add R S) = point_add (point_add P R) S
}.

Declare Scope point_scope.
Delimit Scope point_scope with point.
Infix "+" := point_add : point_scope.
Infix "*" := point_rmul : point_scope.

(** ** The class [Aggregator] *)

Section Aggregator.

Context {Point : Type} `{PointOps Point}.

(** The attributes set by [__init__]. *)
Record Aggregator : Type := {
  message : bytes;                                  (* m *)
  nonce_commitment_pairs : list (Point * Point);    (* B *)
  participant_indexes : list Z                      (* S *)
}.

(** [binding_value], lines 122-129: the loop that collects the serialized
    pair of every participant index. *)
Fixpoint binding_value_loop
    (nonce_commitment_pairs : list (Point * Point))
    (rest : list Z) (nonce_commitment_pairs_bytes : list bytes)
    : result (list bytes) :=
  match rest with
  | [] => Ok nonce_commitment_pairs_bytes
  | idx :: rest' =>
      if (idx <? 1) || (idx >? Py.len nonce_commitment_pairs)
      then Raise (ValueError_nonce_commitments idx)
      else
        participant_pair <-
          Py.tuple_getitem nonce_commitment_pairs (idx - 1) ;;
        let participant_pair_bytes :=
          Py.bytes_join
            (map sec_serialize
               [fst participant_pair; snd participant_pair]) in
        binding_value_loop nonce_commitment_pairs rest'
          (nonce_commitment_pairs_bytes ++ [participant_pair_bytes])
  end.

Definition binding_value
    (index : Z) (message : bytes)
    (nonce_commitment_pairs : list (Point * Point))
    (participant_indexes : list Z) : result Z :=
  if index <? 1 then Raise ValueError_must_start_from_1
  else
    let binding_value := SHA256.new [] in
    (* l *)
    index_byte <- Py.int_to_bytes index 1 ;;
    (* B *)
    nonce_commitment_pairs_bytes <-
      binding_value_loop nonce_commitment_pairs participant_indexes [] ;;
    (* p_l = H_1(l, m, B) *)
    let binding_value := SHA256.update binding_value index_byte in
    let binding_value := SHA256.update binding_value message in
    let binding_value :=
      SHA256.update binding_value
        (Py.bytes_join nonce_commitment_pairs_bytes) in
    let binding_value_bytes := SHA256.digest binding_value in
    Ok (Py.int_from_bytes binding_value_bytes).

(** [group_commitment], lines 73-85: the loop over the indexes still to
    visit.  [participant_indexes] is the whole tuple, which every call of
    [binding_value] receives. *)
Fixpoint group_commitment_loop
    (message : bytes) (nonce_commitment_pairs : list (Point * Point))
    (participant_indexes : list Z)
    (rest : list Z) (group_commitment : Point) : result Point :=
  match rest with
  | [] => Ok group_commitment
  | index :: rest' =>
      if (index <? 1) || (index >? Py.len nonce_commitment_pairs)
      then Raise (ValueError_participant_index index)
      else
        binding_value <-
          binding_value index message nonce_commitment_pairs
            participant_indexes ;;
        '(first_commitment, second_commitment) <-
          Py.tuple_getitem nonce_commitment_pairs (index - 1) ;;
        group_commitment_loop message nonce_commitment_pairs
          participant_indexes rest'
          (group_commitment +
             (first_commitment + binding_value * second_commitment))%point
  end.

Definition group_commitment
    (message : bytes) (nonce_commitment_pairs : list (Point * Point))
    (participant_indexes : list Z) : result Point :=
  group_commitment_loop message nonce_commitment_pairs participant_indexes
    participant_indexes point_infinity.

Definition challenge_hash
    (nonce_commitment public_key : Point) (message : bytes) : Z :=
  let tag_hash :=
    SHA256.digest (SHA256.new (ascii_bytes "BIP0340/challenge")) in
  let challenge_hash := SHA256.new [] in
  let challenge_hash := SHA256.update challenge_hash tag_hash in
  let challenge_hash := SHA256.update challenge_hash tag_hash in
  let challenge_hash :=
    SHA256.update challenge_hash (xonly_serialize nonce_commitment) in
  let challenge_hash :=
    SHA256.update challenge_hash (xonly_serialize public_key) in
  let challenge_hash := SHA256.update challenge_hash message in
  let challenge_hash_bytes := SHA256.digest challenge_hash in
  Py.int_from_bytes challenge_hash_bytes mod Q.

Definition derive_shared_secret (shared_secret_shares : list Point) : Point :=
  fold_left (fun shared_secret shared_secret_share =>
               (shared_secret + shared_secret_share)%point)
    shared_secret_shares point_infinity.

Definition signing_inputs (self : Aggregator)
    : bytes * list (Point * Point) :=
  (message self, nonce_commitment_pairs self).

Definition signature (self : Aggregator) (signature_shares : list Z)
    : result string :=
  (* R *)
  group_commitment <-
    group_commitment (message self) (nonce_commitment_pairs self)
      (participant_indexes self) ;;
  let nonce_commitment := xonly_serialize group_commitment in
  let z := Py.sum signature_shares mod Q in
  (* sigma = (R, z) *)
  z_bytes <- Py.int_to_bytes z 32 ;;
  Ok (Py.hex (nonce_commitment ++ z_bytes)).

End Aggregator.

Arguments Aggregator Point : clear implicits.

(** ** What the specification says the operations compute *)

Section Reference.

Context {Point : Type} `{PointOps Point}.

(** A participant index of a sequence of [n] commitment pairs: in [1, n]. *)
Definition in_range (nonce_commitment_pairs : list (Point * Point))
    (idx : Z) : Prop :=
  1 <= idx <= Py.len nonce_commitment_pairs.

(** An index that is in range and fits the one byte [binding_value] hashes
    it on. *)
Definition one_byte_index (nonce_commitment_pairs : list (Point * Point))
    (idx : Z) : Prop :=
  in_range nonce_commitment_pairs idx /\ idx <= 255.

(** The pair (D, E) of participant [idx], position [idx - 1] of the
    sequence. *)
Definition pair_of (nonce_commitment_pairs : list (Point * Point))
    (idx : Z) : option (Point * Point) :=
  nth_error nonce_commitment_pairs (Z.to_nat (idx - 1)).

(** The block of participant [idx]: SEC-serialized D, then SEC-serialized
    E. *)
Definition pair_block (nonce_commitment_pairs : list (Point * Point))
    (idx : Z) : bytes :=
  match pair_of nonce_commitment_pairs idx with
  | Some (D, E) => sec_serialize D ++ sec_serialize E
  | None => []
  end.

(** What the binding value of [l] hashes: the byte [l], the message, the
    blocks of the set in its given order. *)
Definition binding_preimage (l : Z) (message : bytes)
    (nonce_commitment_pairs : list (Point * Point))
    (participant_indexes : list Z) : bytes :=
  [Py.byte_of_Z l] ++ message ++
  flat_map (pair_block nonce_commitment_pairs) participant_indexes.

(** The binding factor of [l]: the digest read as a big-endian integer. *)
Definition binding_factor (l : Z) (message : bytes)
    (nonce_commitment_pairs : list (Point * Point))
    (participant_indexes : list Z) : Z :=
  Py.int_from_bytes
    (SHA256.digest_of
       (binding_preimage l message nonce_commitment_pairs
          participant_indexes)).

(** The term of participant [l]: D_l + (binding factor of l) * E_l. *)
Definition commitment_term (message : bytes)
    (nonce_commitment_pairs : list (Point * Point))
    (participant_indexes : list Z) (l : Z) : Point :=
  match pair_of nonce_commitment_pairs l with
  | Some (D, E) =>
      (D + binding_factor l message nonce_commitment_pairs
             participant_indexes * E)%point
  | None => point_infinity
  end.

(** The terms of a traversal, added one after the other to [acc]. *)
Definition accumulate (message : bytes)
    (nonce_commitment_pairs : list (Point * Point))
    (participant_indexes : list Z)
    (traversal : list Z) (acc : Point) : Point :=
  fold_left
    (fun acc l =>
       (acc + commitment_term message nonce_commitment_pairs
                participant_indexes l)%point)
    traversal acc.

(** The group commitment of the aggregator's own attributes, as
    [signature] computes it. *)
Definition own_commitment (self : Aggregator Point) : result Point :=
  group_commitment (message self) (nonce_commitment_pairs self)
    (participant_indexes self).

(** The participant indexes of the aggregator are in range and fit the
    one byte they are hashed on. *)
Definition well_indexed (self : Aggregator Point) : Prop :=
  Forall (one_byte_index (nonce_commitment_pairs self))
    (participant_indexes self).

End Reference.

(** ** A group to run the aggregator on

    Every point of a cyclic group of order [Q] is [k * G] for one [k] in
    [0, Q); here a point is this [k].  Addition and scalar multiplication
    are those of the exponents; the serializations write the exponent where
    the curve would write a coordinate. *)

Module LogPoint.

Record t : Type := Log { log : Z }.

Definition add (P R : t) : t := Log ((log P + log R) mod Q).
Definition rmul (k : Z) (P : t) : t := Log ((k * log P) mod Q).
Definition sec (P : t) : bytes := x02 :: Py.be_bytes 32 (log P mod Q).
Definition xonly (P : t) : bytes := Py.be_bytes 32 (log P mod Q).

#[global] Instance ops : PointOps t := {|
  point_infinity := Log 0;
  point_add := add;
  point_rmul := rmul;
  sec_serialize := sec;
  xonly_serialize := xonly
|}.

(** Three registered participants with commitments (G, 2G), (3G, 4G),
    (5G, 6G). *)
Definition three_pairs : list (t * t) :=
  [(Log 1, Log 2); (Log 3, Log 4); (Log 5, Log 6)].

(** 256 registered participants, so that 256 is an index in range. *)
Definition many_pairs : list (t * t) := repeat (Log 1, Log 2) 256.

Definition zeros32 : bytes := repeat x00 32.

Definition aggregator_12 : Aggregator t :=
  {| message := zeros32;
     nonce_commitment_pairs := three_pairs;
     participant_indexes := [1; 2] |}.

Definition aggregator_256 : Aggregator t :=
  {| message := zeros32;
     nonce_commitment_pairs := many_pairs;
     participant_indexes := [256] |}.

Definition aggregator_1_256 : Aggregator t :=
  {| message := zeros32;
     nonce_commitment_pairs := many_pairs;
     participant_indexes := [1; 256] |}.

End LogPoint.

(** ** The integers as a second group

    The additive group of the integers, whose identity is neutral as it
    stands; a point is written on 32 bytes modulo 2^256. *)

Module IntPoint.

Record t : Type := Int { val : Z }.

#[global] Instance ops : PointOps t := {|
  point_infinity := Int 0;
  point_add P R := Int (val P + val R);
  point_rmul k P := Int (k * val P);
  sec_serialize P := x02 :: Py.be_bytes 32 (val P);
  xonly_serialize P := Py.be_bytes 32 (val P)
|}.

End IntPoint.

(** * Properties *)

(** ** The Python built-ins *)

Module PyFacts.
Import Py.

Lemma Z_of_byte_range (b : byte) : 0 <= Z_of_byte b < 256.
Proof.
  unfold Z_of_byte. pose proof (Byte.to_N_bounded b). lia.
Qed.

Lemma Z_of_byte_of_Z (z : Z) : Z_of_byte (byte_of_Z z) = z mod 256.
Proof.
  unfold byte_of_Z, Z_of_byte.
  assert (Hr : 0 <= z mod 256 < 256) by (apply Z.mod_pos_bound; lia).
  destruct (Byte.of_N (Z.to_N (z mod 256))) as [b|] eqn:E.
  - apply Byte.to_of_N in E. rewrite E. lia.
  - apply Byte.of_N_None_iff in E. lia.
Qed.

Lemma byte_of_Z_of_byte (b : byte) : byte_of_Z (Z_of_byte b) = b.
Proof.
  unfold byte_of_Z, Z_of_byte.
  pose proof (Byte.to_N_bounded b).
  rewrite Z.mod_small by lia.
  rewrite N2Z.id, Byte.of_to_N. reflexivity.
Qed.

Lemma be_bytes_length (n : nat) (z : Z) : List.length (be_bytes n z) = n.
Proof. induction n; simpl; congruence. Qed.

Lemma int_from_bytes_app (bs : bytes) (b : byte) :
  int_from_bytes (bs ++ [b]) = int_from_bytes bs * 256 + Z_of_byte b.
Proof. unfold int_from_bytes. rewrite fold_left_app. reflexivity. Qed.

Lemma fold_from_bytes (bs : bytes) (acc : Z) :
  fold_left (fun a b => a * 256 + Z_of_byte b) bs acc =
  acc * 256 ^ Z.of_nat (List.length bs) + int_from_bytes bs.
Proof.
  unfold int_from_bytes. revert acc.
  induction bs as [|b bs IH]; intros acc.
  - simpl. lia.
  - cbn [fold_left List.length]. rewrite IH, (IH (0 * 256 + _)).
    rewrite Nat2Z.inj_succ, Z.pow_succ_r by lia. ring.
Qed.

Lemma int_from_bytes_cons (b : byte) (bs : bytes) :
  int_from_bytes (b :: bs) =
  Z_of_byte b * 256 ^ Z.of_nat (List.length bs) + int_from_bytes bs.
Proof.
  unfold int_from_bytes at 1. cbn [fold_left].
  rewrite fold_from_bytes. f_equal.
Qed.

Lemma int_from_bytes_range (bs : bytes) :
  0 <= int_from_bytes bs < 256 ^ Z.of_nat (List.length bs).
Proof.
  induction bs as [|b bs IH].
  - cbn. lia.
  - rewrite int_from_bytes_cons. cbn [List.length].
    rewrite Nat2Z.inj_succ, Z.pow_succ_r by lia.
    pose proof (Z_of_byte_range b). nia.
Qed.

(** Reading back what [be_bytes] wrote gives the integer modulo
    [256 ^ n]. *)
Lemma int_from_bytes_be_bytes (n : nat) (z : Z) :
  int_from_bytes (be_bytes n z) = z mod 256 ^ Z.of_nat n.
Proof.
  induction n as [|n IH].
  - cbn. now rewrite Z.mod_1_r.
  - cbn [be_bytes]. rewrite int_from_bytes_cons, be_bytes_length, IH.
    rewrite Z_of_byte_of_Z.
    rewrite Nat2Z.inj_succ, Z.pow_succ_r by lia.
    set (p := 256 ^ Z.of_nat n).
    assert (Hp : 0 < p) by (apply Z.pow_pos_nonneg; lia).
    rewrite (Z.mul_comm 256 p), Z.rem_mul_r by lia. lia.
Qed.

Lemma int_to_bytes_ok (z : Z) (n : nat) :
  0 <= z < 256 ^ Z.of_nat n ->
  int_to_bytes z n = Ok (be_bytes n z).
Proof.
  intros Hz. unfold int_to_bytes.
  destruct (Z.ltb_spec z 0); [lia|].
  destruct (Z.leb_spec (256 ^ Z.of_nat n) z); [lia|]. reflexivity.
Qed.

Lemma int_to_bytes_overflow (z : Z) (n : nat) :
  256 ^ Z.of_nat n <= z -> int_to_bytes z n = Raise OverflowError.
Proof.
  intros Hz. unfold int_to_bytes.
  destruct (Z.ltb_spec z 0); [reflexivity|].
  destruct (Z.leb_spec (256 ^ Z.of_nat n) z); [reflexivity|lia].
Qed.

(** One byte, as [binding_value] asks for. *)
Lemma int_to_bytes_1 (z : Z) :
  0 <= z <= 255 -> int_to_bytes z 1 = Ok [byte_of_Z z].
Proof.
  intros Hz. rewrite int_to_bytes_ok by (cbn; lia).
  cbn [be_bytes]. cbn [Z.of_nat]. now rewrite Z.pow_0_r, Z.div_1_r.
Qed.

(** A subscript [idx - 1] with [idx] in [1, len t] finds the element. *)
Lemma tuple_getitem_in_range {A : Type} (t : list A) (idx : Z) :
  1 <= idx <= len t ->
  exists a, nth_error t (Z.to_nat (idx - 1)) = Some a /\
            tuple_getitem t (idx - 1) = Ok a.
Proof.
  intros Hi. unfold tuple_getitem. cbv zeta.
  assert (E0 : (idx - 1 <? 0) = false) by (apply Z.ltb_ge; lia).
  assert (E1 : (len t <=? idx - 1) = false) by (apply Z.leb_gt; lia).
  rewrite !E0, E1. cbn [orb].
  destruct (nth_error t (Z.to_nat (idx - 1))) as [a|] eqn:E.
  - now exists a.
  - apply nth_error_None in E. unfold len in *. lia.
Qed.

(** *** [hex] *)

Lemma hex_length (bs : bytes) :
  String.length (hex bs) = (2 * List.length bs)%nat.
Proof. induction bs as [|b bs IH]; cbn [hex String.length List.length]; lia. Qed.

Lemma hex_app (bs cs : bytes) : hex (bs ++ cs) = (hex bs ++ hex cs)%string.
Proof.
  induction bs as [|b bs IH]; cbn [hex List.app String.append];
    [reflexivity | now rewrite IH].
Qed.

Lemma hex_byte_lower (b : byte) :
  is_lower_hex (hex_digit (Z_of_byte b / 16)) = true /\
  is_lower_hex (hex_digit (Z_of_byte b mod 16)) = true.
Proof. destruct b; split; vm_compute; reflexivity. Qed.

Lemma hex_lower (bs : bytes) : string_forallb is_lower_hex (hex bs) = true.
Proof.
  induction bs as [|b bs IH]; cbn [hex string_forallb]; [reflexivity|].
  destruct (hex_byte_lower b) as [-> ->]. now rewrite IH.
Qed.

Lemma fromhex_byte (b : byte) :
  fromhex (hex [b]) = Some [b].
Proof. destruct b; vm_compute; reflexivity. Qed.

(** Decoding the hexadecimal form gives the bytes back. *)
Lemma fromhex_hex (bs : bytes) : fromhex (hex bs) = Some bs.
Proof.
  induction bs as [|b bs IH]; [reflexivity|].
  pose proof (fromhex_byte b) as Hb.
  cbn [hex fromhex] in Hb |- *. rewrite IH.
  destruct (unhex_digit (hex_digit (Z_of_byte b / 16)));
    [|discriminate].
  destruct (unhex_digit (hex_digit (Z_of_byte b mod 16)));
    [|discriminate].
  now inversion Hb.
Qed.

Lemma be_bytes_32_0 : be_bytes 32 0 = repeat x00 32.
Proof. vm_compute. reflexivity. Qed.

End PyFacts.

(** ** [hashlib.sha256] *)

Module SHA256Facts.
Import SHA256.

Lemma digest_of_length (msg : bytes) :
  List.length (digest_of msg) = 32%nat.
Proof.
  unfold digest_of, state_bytes.
  rewrite !length_app, !PyFacts.be_bytes_length. reflexivity.
Qed.

(** A digest read as an integer is below [2 ^ 256]. *)
Lemma digest_of_range (msg : bytes) :
  0 <= Py.int_from_bytes (digest_of msg) < 2 ^ 256.
Proof.
  pose proof (PyFacts.int_from_bytes_range (digest_of msg)) as Hr.
  rewrite digest_of_length in Hr.
  change (256 ^ Z.of_nat 32) with (2 ^ 256) in Hr. exact Hr.
Qed.

(** Feeding a hash object piece by piece hashes the concatenation. *)
Lemma digest_update (h : hash) (data : bytes) :
  digest (update h data) = digest_of (fed h ++ data).
Proof. reflexivity. Qed.

(** The derived constants are those printed in FIPS 180-4. *)
Example round_constants_first_last :
  nth 0 K 0 = 0x428a2f98 /\ nth 63 K 0 = 0xc67178f2 /\
  ha H0 = 0x6a09e667 /\ hh H0 = 0x5be0cd19.
Proof. vm_compute. repeat split. Qed.

End SHA256Facts.

Example sha256_empty :
  Py.hex (SHA256.digest (SHA256.new [])) =
  "e3b0c44298fc1c149afbf4c8996fb92427ae41e4649b934ca495991b7852b855"%string.
Proof. vm_compute. reflexivity. Qed.

Example sha256_abc :
  Py.hex (SHA256.digest (SHA256.new (ascii_bytes "abc"))) =
  "ba7816bf8f01cfea414140de5dae2223b00361a396177a9cb410ff61f20015ad"%string.
Proof. vm_compute. reflexivity. Qed.

Example sha256_two_blocks :
  Py.hex (SHA256.digest (SHA256.new (repeat "a"%byte 100))) =
  "2816597888e4a0d3a36b82b83316ab32680eb8f00f8cd3b904d681246d285a0e"%string.
Proof. vm_compute. reflexivity. Qed.

Example sha256_bip340_challenge_tag :
  Py.hex (SHA256.digest (SHA256.new (ascii_bytes "BIP0340/challenge"))) =
  "7bb52d7a9fef58323eb1bf7a407db382d2f3f2d81bb1224f49fe518f6d48d37c"%string.
Proof. vm_compute. reflexivity. Qed.


(** ** The loops of the aggregator *)

Section AggregatorFacts.

Context {Point : Type} `{PointOps Point}.

Implicit Types (pairs : list (Point * Point)) (set rest : list Z).
Implicit Types (m : bytes) (l idx : Z).

Lemma in_range_dec pairs idx :
  {in_range pairs idx} + {~ in_range pairs idx}.
Proof.
  unfold in_range.
  destruct (Z_le_dec 1 idx); [|right; lia].
  destruct (Z_le_dec idx (Py.len pairs)); [left|right]; lia.
Defined.

(** The guard [idx < 1 or idx > len(nonce_commitment_pairs)]. *)
Lemma guard_in_range pairs idx :
  in_range pairs idx ->
  (idx <? 1) || (idx >? Py.len pairs) = false.
Proof.
  unfold in_range. intros Hr. rewrite Z.gtb_ltb.
  apply orb_false_intro; apply Z.ltb_ge; lia.
Qed.

Lemma guard_out_of_range pairs idx :
  ~ in_range pairs idx ->
  (idx <? 1) || (idx >? Py.len pairs) = true.
Proof.
  unfold in_range. intros Hr. rewrite Z.gtb_ltb.
  destruct (Z.ltb_spec idx 1); [reflexivity|].
  destruct (Z.ltb_spec (Py.len pairs) idx); [reflexivity|lia].
Qed.

Lemma getitem_pair_of pairs idx :
  in_range pairs idx ->
  exists D E, pair_of pairs idx = Some (D, E) /\
              Py.tuple_getitem pairs (idx - 1) = Ok (D, E).
Proof.
  intros Hr.
  destruct (PyFacts.tuple_getitem_in_range pairs idx Hr) as [[D E] [? ?]].
  now exists D, E.
Qed.

(** With every index in range the loop of [binding_value] appends one
    block per index, in order. *)
Lemma binding_value_loop_ok pairs rest (acc : list bytes) :
  Forall (in_range pairs) rest ->
  binding_value_loop pairs rest acc =
  Ok (acc ++ map (pair_block pairs) rest).
Proof.
  intros Hall. revert acc.
  induction Hall as [|idx rest Hidx _ IH]; intros acc.
  - cbn. now rewrite app_nil_r.
  - cbn [binding_value_loop map]. rewrite (guard_in_range _ _ Hidx).
    destruct (getitem_pair_of _ _ Hidx) as (D & E & Hp & ->).
    cbn [bind fst snd map Py.bytes_join List.concat].
    rewrite IH, <- app_assoc. unfold pair_block. rewrite Hp.
    now rewrite app_nil_r.
Qed.

(** The first index out of range stops the loop of [binding_value]. *)
Lemma binding_value_loop_bad pairs rest (acc : list bytes) :
  Exists (fun idx => ~ in_range pairs idx) rest ->
  exists idx, In idx rest /\ ~ in_range pairs idx /\
    binding_value_loop pairs rest acc =
    Raise (ValueError_nonce_commitments idx).
Proof.
  revert acc. induction rest as [|i rest IH]; intros acc Hex.
  - inversion Hex.
  - cbn [binding_value_loop].
    destruct (in_range_dec pairs i) as [Hi|Hi].
    + rewrite (guard_in_range _ _ Hi).
      destruct (getitem_pair_of _ _ Hi) as (D & E & _ & ->).
      cbn [bind]. inversion Hex as [? ? Hbad|? ? Hbad]; subst;
        [contradiction|].
      destruct (IH (acc ++
        [Py.bytes_join (map sec_serialize [fst (D, E); snd (D, E)])]) Hbad)
        as (idx & Hin & Hout & ->).
      exists idx. auto using in_cons.
    + rewrite (guard_out_of_range _ _ Hi).
      exists i. auto using in_eq.
Qed.

(** *** [binding_value] *)

Lemma binding_value_below_1 l m pairs set :
  l < 1 -> binding_value l m pairs set = Raise ValueError_must_start_from_1.
Proof.
  intros Hl. unfold binding_value.
  destruct (Z.ltb_spec l 1); [reflexivity|lia].
Qed.

Lemma binding_value_above_255 l m pairs set :
  255 < l -> binding_value l m pairs set = Raise OverflowError.
Proof.
  intros Hl. unfold binding_value.
  destruct (Z.ltb_spec l 1); [lia|].
  rewrite PyFacts.int_to_bytes_overflow by (cbn; lia). reflexivity.
Qed.

Lemma binding_value_ok l m pairs set :
  1 <= l <= 255 ->
  Forall (in_range pairs) set ->
  binding_value l m pairs set = Ok (binding_factor l m pairs set).
Proof.
  intros Hl Hset. unfold binding_value.
  destruct (Z.ltb_spec l 1); [lia|].
  rewrite PyFacts.int_to_bytes_1 by lia. cbn [bind].
  rewrite binding_value_loop_ok by assumption. cbn [bind app].
  unfold binding_factor, binding_preimage, SHA256.digest, SHA256.update,
    SHA256.new, Py.bytes_join. cbn [SHA256.fed app].
  now rewrite flat_map_concat_map.
Qed.

Lemma binding_value_bad_set l m pairs set :
  1 <= l <= 255 ->
  Exists (fun idx => ~ in_range pairs idx) set ->
  exists idx, In idx set /\ ~ in_range pairs idx /\
    binding_value l m pairs set = Raise (ValueError_nonce_commitments idx).
Proof.
  intros Hl Hset. unfold binding_value.
  destruct (Z.ltb_spec l 1); [lia|].
  rewrite PyFacts.int_to_bytes_1 by lia. cbn [bind].
  destruct (binding_value_loop_bad pairs set [] Hset)
    as (idx & Hin & Hout & ->).
  now exists idx.
Qed.

(** *** [group_commitment] *)

(** One iteration on an index that passes every check. *)
Lemma group_commitment_loop_step m pairs set idx rest (acc : Point) :
  Forall (in_range pairs) set ->
  one_byte_index pairs idx ->
  group_commitment_loop m pairs set (idx :: rest) acc =
  group_commitment_loop m pairs set rest
    (acc + commitment_term m pairs set idx)%point.
Proof.
  intros Hset [Hr H255]. cbn [group_commitment_loop].
  rewrite (guard_in_range _ _ Hr).
  rewrite binding_value_ok by (unfold in_range in Hr; auto; lia).
  destruct (getitem_pair_of _ _ Hr) as (D & E & Hp & ->).
  cbn [bind]. unfold commitment_term. now rewrite Hp.
Qed.

(** With every index in range and at most 255, the loop adds the term of
    each index it visits. *)
Lemma group_commitment_loop_ok m pairs set rest (acc : Point) :
  Forall (in_range pairs) set ->
  Forall (one_byte_index pairs) rest ->
  group_commitment_loop m pairs set rest acc =
  Ok (accumulate m pairs set rest acc).
Proof.
  intros Hset Hrest. revert acc.
  induction Hrest as [|idx rest Hidx _ IH]; intros acc; [reflexivity|].
  rewrite group_commitment_loop_step by assumption.
  now rewrite IH.
Qed.

Lemma one_byte_in_range pairs set :
  Forall (one_byte_index pairs) set -> Forall (in_range pairs) set.
Proof. apply Forall_impl. now intros idx [? _]. Qed.

Lemma group_commitment_ok m pairs set :
  Forall (one_byte_index pairs) set ->
  group_commitment m pairs set =
  Ok (accumulate m pairs set set point_infinity).
Proof.
  intros Hset. unfold group_commitment.
  now apply group_commitment_loop_ok; [apply one_byte_in_range|].
Qed.

(** An index in range above 255 stops the loop with [OverflowError],
    whatever the rest of the set. *)
Lemma group_commitment_loop_overflow m pairs set idx rest (acc : Point) :
  in_range pairs idx -> 255 < idx ->
  group_commitment_loop m pairs set (idx :: rest) acc =
  Raise OverflowError.
Proof.
  intros Hr H255. cbn [group_commitment_loop].
  rewrite (guard_in_range _ _ Hr).
  now rewrite binding_value_above_255.
Qed.

End AggregatorFacts.

(** ** Index validation *)

Section IndexValidation.

Context {Point : Type} `{PointOps Point}.

Implicit Types (pairs : list (Point * Point)) (set rest : list Z).
Implicit Types (m : bytes) (l idx : Z).

(** C1, as amended.  [binding_value] raises IndexOutOfRange when it is
    called with index 0, whatever the message, the sequence and the set,
    and, when called with an index in [1, 255], whenever the
    participant-index set has a member outside [1, n], such as 0 or n+1.
    [group_commitment] raises IndexOutOfRange when the participant-index
    set contains an index outside [1, n], such as 0 or n+1, provided the
    first index of the set is not an in-range index above 255 (that one
    stops the computation earlier, in the one-byte encoding).  Nothing is
    said of [binding_value] called with index n+1 and a set in range. *)
Theorem index_out_of_range_raises m pairs set :
  binding_value 0 m pairs set = Raise ValueError_must_start_from_1 /\
  is_IndexOutOfRange ValueError_must_start_from_1 = true /\
  (forall l idx,
      1 <= l <= 255 -> In idx set -> ~ in_range pairs idx ->
      exists e, binding_value l m pairs set = Raise e /\
                is_IndexOutOfRange e = true) /\
  (forall idx,
      In idx set -> ~ in_range pairs idx ->
      ~ (in_range pairs (List.hd 0 set) /\ 255 < List.hd 0 set) ->
      exists e, group_commitment m pairs set = Raise e /\
                is_IndexOutOfRange e = true).
Proof.
  assert (Hbv : forall l idx,
    1 <= l <= 255 -> In idx set -> ~ in_range pairs idx ->
    exists e, binding_value l m pairs set = Raise e /\
              is_IndexOutOfRange e = true).
  { intros l idx Hl Hin Hout.
    assert (Hex : Exists (fun i => ~ in_range pairs i) set)
      by (apply Exists_exists; now exists idx).
    destruct (binding_value_bad_set l m pairs set Hl Hex)
      as (bad & _ & _ & ->).
    eexists. split; reflexivity. }
  split; [now apply binding_value_below_1|]. split; [reflexivity|].
  split; [exact Hbv|].
  intros idx Hin Hout Hhd.
  destruct set as [|first rest]; [contradiction|]. cbn [List.hd] in Hhd.
  unfold group_commitment. cbn [group_commitment_loop].
  destruct (in_range_dec pairs first) as [Hfirst|Hfirst].
  - rewrite (guard_in_range _ _ Hfirst).
    assert (Hbyte : 1 <= first <= 255)
      by (unfold in_range in *; lia).
    destruct (Hbv first idx Hbyte Hin Hout) as (e & -> & He).
    cbn [bind]. now exists e.
  - rewrite (guard_out_of_range _ _ Hfirst).
    eexists. split; reflexivity.
Qed.

End IndexValidation.

(** The theorem at the three registered pairs, for the sets (1, 0) and
    (2, 4). *)
Lemma index_out_of_range_raises_witness :
  (1 <= 1 <= 255 /\ In 0 [1; 0] /\ ~ in_range LogPoint.three_pairs 0 /\
   ~ (in_range LogPoint.three_pairs (List.hd 0 [1; 0]) /\
      255 < List.hd 0 [1; 0])) /\
  binding_value 0 LogPoint.zeros32 LogPoint.three_pairs [1; 0] =
    Raise ValueError_must_start_from_1 /\
  (exists e,
      binding_value 1 LogPoint.zeros32 LogPoint.three_pairs [1; 0] =
        Raise e /\ is_IndexOutOfRange e = true) /\
  (exists e,
      group_commitment LogPoint.zeros32 LogPoint.three_pairs [1; 0] =
        Raise e /\ is_IndexOutOfRange e = true) /\
  (exists e,
      group_commitment LogPoint.zeros32 LogPoint.three_pairs [2; 4] =
        Raise e /\ is_IndexOutOfRange e = true).
Proof.
  assert (H0 : ~ in_range LogPoint.three_pairs 0)
    by (unfold in_range; cbn; lia).
  assert (H4 : ~ in_range LogPoint.three_pairs 4)
    by (unfold in_range; cbn; lia).
  pose proof (index_out_of_range_raises LogPoint.zeros32
                LogPoint.three_pairs [1; 0]) as (Hzero & _ & Hbv & Hgc).
  pose proof (index_out_of_range_raises LogPoint.zeros32
                LogPoint.three_pairs [2; 4]) as (_ & _ & _ & Hgc').
  split; [|split; [|split; [|split]]].
  - split; [lia|]. split; [cbn; auto|]. split; [exact H0|]. cbn. lia.
  - exact Hzero.
  - apply (Hbv 1 0); [lia | cbn; auto | exact H0].
  - apply (Hgc 0); [cbn; auto | exact H0 | cbn; lia].
  - apply (Hgc' 4); [cbn; auto | exact H4 | cbn; lia].
Defined.

(** C1 as stated fails.  With three registered pairs and the in-range set
    (1, 2), [binding_value] called with index 3 + 1 raises nothing: it
    returns the binding factor. *)
Lemma binding_value_accepts_index_n_plus_1 :
  Py.len LogPoint.three_pairs = 3 /\
  Forall (in_range LogPoint.three_pairs) [1; 2] /\
  binding_value (3 + 1) LogPoint.zeros32 LogPoint.three_pairs [1; 2] =
    Ok (binding_factor 4 LogPoint.zeros32 LogPoint.three_pairs [1; 2]) /\
  ~ (exists e,
        binding_value (3 + 1) LogPoint.zeros32 LogPoint.three_pairs [1; 2] =
          Raise e /\ is_IndexOutOfRange e = true).
Proof.
  assert (Hset : Forall (in_range LogPoint.three_pairs) [1; 2])
    by (repeat constructor; cbn; lia).
  assert (Hv :
    binding_value (3 + 1) LogPoint.zeros32 LogPoint.three_pairs [1; 2] =
    Ok (binding_factor 4 LogPoint.zeros32 LogPoint.three_pairs [1; 2]))
    by (apply binding_value_ok; [lia | exact Hset]).
  split; [reflexivity|]. split; [exact Hset|]. split; [exact Hv|].
  intros [e [He _]]. rewrite Hv in He. discriminate.
Qed.

(** The other corner the amendment excludes: with 256 registered pairs the
    set (256, 0) contains 0, yet [group_commitment] stops on the in-range
    index 256 with [OverflowError]. *)
Lemma group_commitment_overflow_before_range_check :
  group_commitment LogPoint.zeros32 LogPoint.many_pairs [256; 0] =
  Raise OverflowError.
Proof. vm_compute. reflexivity. Qed.

(** ** The binding value *)

Section BindingValue.

Context {Point : Type} `{PointOps Point}.

Implicit Types (pairs : list (Point * Point)) (set : list Z).
Implicit Types (m : bytes) (l : Z).

(** C2.  For l in [1, 255] and a set whose members all lie in [1, n],
    [binding_value] returns the SHA-256 digest of the one-byte big-endian
    encoding of l, then the message, then, in the set's given order, the
    SEC form of D followed by the SEC form of E of each indexed pair; the
    digest is read as a big-endian unsigned integer and is not reduced
    modulo Q: the result is that integer itself, anywhere below 2^256. *)
Theorem binding_value_is_digest l m pairs set :
  1 <= l <= 255 ->
  Forall (in_range pairs) set ->
  let index_byte := [Py.byte_of_Z l] in
  let preimage :=
    index_byte ++ m ++ flat_map (pair_block pairs) set in
  binding_value l m pairs set =
    Ok (Py.int_from_bytes (SHA256.digest_of preimage)) /\
  Py.int_to_bytes l 1 = Ok index_byte /\
  Py.int_from_bytes index_byte = l /\
  (forall idx, In idx set ->
     exists D E, nth_error pairs (Z.to_nat (idx - 1)) = Some (D, E) /\
                 pair_block pairs idx = sec_serialize D ++ sec_serialize E) /\
  0 <= Py.int_from_bytes (SHA256.digest_of preimage) < 2 ^ 256.
Proof.
  intros Hl Hset index_byte preimage.
  split.
  { rewrite binding_value_ok by assumption. reflexivity. }
  split.
  { apply PyFacts.int_to_bytes_1. lia. }
  split.
  { subst preimage index_byte. unfold Py.int_from_bytes. cbn [fold_left].
    rewrite PyFacts.Z_of_byte_of_Z, Z.mod_small; lia. }
  split.
  2:{ apply SHA256Facts.digest_of_range. }
  intros idx Hin.
  assert (Hidx : in_range pairs idx)
    by (rewrite Forall_forall in Hset; auto).
  destruct (getitem_pair_of _ _ Hidx) as (D & E & Hp & _).
  exists D, E. unfold pair_block. rewrite Hp.
  split; [exact Hp|reflexivity].
Qed.

End BindingValue.
(** The theorem for participant 1, the three registered pairs and the set
    (2, 1). *)
Lemma binding_value_is_digest_witness :
  1 <= 1 <= 255 /\
  Forall (in_range LogPoint.three_pairs) [2; 1] /\
  binding_value 1 LogPoint.zeros32 LogPoint.three_pairs [2; 1] =
    Ok (Py.int_from_bytes
          (SHA256.digest_of
             ([Py.byte_of_Z 1] ++ LogPoint.zeros32 ++
              flat_map (pair_block LogPoint.three_pairs) [2; 1]))).
Proof.
  assert (Hl : 1 <= 1 <= 255) by lia.
  assert (Hset : Forall (in_range LogPoint.three_pairs) [2; 1])
    by (repeat constructor; cbn; lia).
  split; [exact Hl|]. split; [exact Hset|].
  exact (proj1 (binding_value_is_digest 1 LogPoint.zeros32
                  LogPoint.three_pairs [2; 1] Hl Hset)).
Defined.

(** The order of the set reaches the hash: (2, 1) and (1, 2) give
    different binding values. *)
Example binding_value_depends_on_set_order :
  binding_value 1 LogPoint.zeros32 LogPoint.three_pairs [2; 1] <>
  binding_value 1 LogPoint.zeros32 LogPoint.three_pairs [1; 2].
Proof. vm_compute. discriminate. Qed.

(** ** The challenge hash *)

Lemma Q_pos : 0 < Q.
Proof. reflexivity. Qed.

Lemma Q_fits_32_bytes : Q < 256 ^ Z.of_nat 32.
Proof. reflexivity. Qed.

Section ChallengeHash.

Context {Point : Type} `{PointOps Point}.

(** C4.  [challenge_hash] returns SHA-256 of tag, tag, the x-only form of
    the nonce commitment, the x-only form of the public key and the
    message, with tag the SHA-256 digest of "BIP0340/challenge"; the
    digest is read as a big-endian unsigned integer and reduced modulo Q,
    so the result lies in [0, Q).  The operation has no failing path: it
    is a total function to the integers. *)
Theorem challenge_hash_is_tagged_digest
    (nonce_commitment public_key : Point) (m : bytes) :
  let tag := SHA256.digest_of (ascii_bytes "BIP0340/challenge") in
  let digest :=
    SHA256.digest_of
      (tag ++ tag ++ xonly_serialize nonce_commitment ++
       xonly_serialize public_key ++ m) in
  challenge_hash nonce_commitment public_key m =
    Py.int_from_bytes digest mod Q /\
  0 <= challenge_hash nonce_commitment public_key m < Q /\
  Py.hex tag =
    "7bb52d7a9fef58323eb1bf7a407db382d2f3f2d81bb1224f49fe518f6d48d37c"%string.
Proof.
  intros tag digest. split; [|split].
  - subst digest tag.
    cbv [challenge_hash SHA256.update SHA256.new SHA256.digest SHA256.fed].
    rewrite app_nil_l, <- !app_assoc. reflexivity.
  - apply Z.mod_pos_bound, Q_pos.
  - subst tag. vm_compute. reflexivity.
Qed.

End ChallengeHash.

(** ** The group commitment *)

Section GroupCommitment.

Context {Point : Type} `{PointOps Point}.

Implicit Types (pairs : list (Point * Point)) (set rest : list Z).
Implicit Types (m : bytes) (l idx : Z).

(** C6.  With an empty participant-index set [group_commitment] returns
    the identity element, the point at infinity; it does not fail. *)
Theorem group_commitment_empty_set m pairs :
  group_commitment m pairs [] = Ok point_infinity.
Proof. reflexivity. Qed.

(** In an in-range set, an index above 255 anywhere in what is left to
    visit ends the loop with [OverflowError]. *)
Lemma group_commitment_loop_overflows m pairs set rest (acc : Point) :
  Forall (in_range pairs) set ->
  Forall (in_range pairs) rest ->
  Exists (fun idx => 255 < idx) rest ->
  group_commitment_loop m pairs set rest acc = Raise OverflowError.
Proof.
  intros Hset Hrest. revert acc.
  induction Hrest as [|idx rest Hidx _ IH]; intros acc Hbig.
  - inversion Hbig.
  - destruct (Z_lt_dec 255 idx) as [Hgt|Hle].
    + now apply group_commitment_loop_overflow.
    + rewrite group_commitment_loop_step
        by first [assumption | split; [assumption|lia]].
      apply IH. inversion Hbig; subst; [lia|assumption].
Qed.

(** C8.  For an index l above 255 [binding_value] fails in the one-byte
    encoding of the index, with [OverflowError], which is not
    IndexOutOfRange, even when l is at most n; hence [group_commitment]
    fails, with the same error, on an in-range set that has a member
    above 255. *)
Theorem index_above_255_overflows l m pairs set :
  255 < l ->
  binding_value l m pairs set = Raise OverflowError /\
  is_IndexOutOfRange OverflowError = false /\
  (Forall (in_range pairs) set -> In l set ->
   group_commitment m pairs set = Raise OverflowError).
Proof.
  intros Hl. split; [now apply binding_value_above_255|].
  split; [reflexivity|]. intros Hset Hin.
  apply group_commitment_loop_overflows; try assumption.
  apply Exists_exists. now exists l.
Qed.

End GroupCommitment.

(** The theorem for index 256 of 256 registered pairs. *)
Lemma index_above_255_overflows_witness :
  255 < 256 /\
  Forall (in_range LogPoint.many_pairs) [1; 256] /\ In 256 [1; 256] /\
  binding_value 256 LogPoint.zeros32 LogPoint.many_pairs [1; 256] =
    Raise OverflowError /\
  group_commitment LogPoint.zeros32 LogPoint.many_pairs [1; 256] =
    Raise OverflowError.
Proof.
  assert (Hl : 255 < 256) by lia.
  assert (Hset : Forall (in_range LogPoint.many_pairs) [1; 256])
    by (repeat constructor; cbn; lia).
  assert (Hin : In 256 [1; 256]) by (cbn; auto).
  pose proof (index_above_255_overflows 256 LogPoint.zeros32
                LogPoint.many_pairs [1; 256] Hl) as (Hb & _ & Hg).
  split; [exact Hl|]. split; [exact Hset|]. split; [exact Hin|].
  split; [exact Hb | exact (Hg Hset Hin)].
Defined.

(** *** Order of the accumulation *)

Section OrderIndependence.

Context {Point : Type} `{AbelianAdd Point}.

Implicit Types (pairs : list (Point * Point)) (set rest : list Z).
Implicit Types (m : bytes) (l idx : Z).

Lemma point_add_swap (acc P R : Point) :
  ((acc + P) + R = (acc + R) + P)%point.
Proof.
  rewrite <- !point_add_assoc. f_equal. apply point_add_comm.
Qed.

(** The sum of the terms does not depend on the order they are added
    in. *)
Lemma accumulate_permutation m pairs set (t1 t2 : list Z) :
  Permutation t1 t2 ->
  forall acc : Point,
    accumulate m pairs set t1 acc = accumulate m pairs set t2 acc.
Proof.
  unfold accumulate.
  induction 1 as [|x t1 t2 _ IH|x y t|t1 t2 t3 _ IH12 _ IH23]; intros acc.
  - reflexivity.
  - cbn [fold_left]. apply IH.
  - cbn [fold_left]. now rewrite point_add_swap.
  - now rewrite IH12.
Qed.

Lemma one_byte_or_overflow pairs rest :
  Forall (in_range pairs) rest ->
  Forall (one_byte_index pairs) rest \/ Exists (fun idx => 255 < idx) rest.
Proof.
  induction 1 as [|idx rest Hidx _ [IH|IH]].
  - left. constructor.
  - destruct (Z_lt_dec 255 idx).
    + right. now constructor.
    + left. constructor; [split; [assumption|lia] | assumption].
  - right. now constructor 2.
Qed.

(** C5.  For an in-range participant-index set, the accumulation of
    [group_commitment] is order-independent: adding the terms
    D_l + (binding value of l) * E_l in any traversal order of the set,
    the binding values being computed from the set in the caller's order,
    gives the same point, curve addition being commutative and
    associative.  This holds of the sum of the terms and of the loop of
    the code run on the reordered traversal. *)
Theorem group_commitment_order_independent m pairs set traversal :
  Forall (in_range pairs) set ->
  Permutation set traversal ->
  accumulate m pairs set traversal point_infinity =
    accumulate m pairs set set point_infinity /\
  group_commitment_loop m pairs set traversal point_infinity =
    group_commitment m pairs set.
Proof.
  intros Hset Hperm.
  split; [symmetry; now apply accumulate_permutation|].
  unfold group_commitment.
  assert (Htrav : Forall (in_range pairs) traversal)
    by now apply (Permutation_Forall Hperm).
  destruct (one_byte_or_overflow pairs set Hset) as [Hall|Hbig].
  - assert (Hall' : Forall (one_byte_index pairs) traversal)
      by now apply (Permutation_Forall Hperm).
    rewrite (group_commitment_loop_ok m pairs set traversal) by assumption.
    rewrite (group_commitment_loop_ok m pairs set set) by assumption.
    f_equal. symmetry. now apply accumulate_permutation.
  - assert (Hbig' : Exists (fun idx => 255 < idx) traversal).
    { apply Exists_exists in Hbig as (idx & Hin & Hgt).
      apply Exists_exists. exists idx.
      split; [now apply (Permutation_in _ Hperm) | assumption]. }
    rewrite (group_commitment_loop_overflows m pairs set traversal)
      by assumption.
    now rewrite (group_commitment_loop_overflows m pairs set set)
      by assumption.
Qed.

End OrderIndependence.

#[global] Instance LogPoint_abelian : AbelianAdd LogPoint.t.
Proof.
  split.
  - intros [p] [r]. cbn. unfold LogPoint.add. cbn. now rewrite Z.add_comm.
  - intros [p] [r] [s]. cbn. unfold LogPoint.add. cbn.
    now rewrite Zplus_mod_idemp_r, Zplus_mod_idemp_l, Z.add_assoc.
Defined.

(** The theorem for the set (1, 2, 3) traversed as (3, 1, 2). *)
Lemma group_commitment_order_independent_witness :
  Forall (in_range LogPoint.three_pairs) [1; 2; 3] /\
  Permutation [1; 2; 3] [3; 1; 2] /\
  group_commitment_loop LogPoint.zeros32 LogPoint.three_pairs [1; 2; 3]
    [3; 1; 2] point_infinity =
  group_commitment LogPoint.zeros32 LogPoint.three_pairs [1; 2; 3].
Proof.
  assert (Hset : Forall (in_range LogPoint.three_pairs) [1; 2; 3])
    by (repeat constructor; cbn; lia).
  assert (Hperm : Permutation [1; 2; 3] [3; 1; 2]).
  { apply perm_trans with (l' := [1; 3; 2]).
    - apply perm_skip, perm_swap.
    - apply perm_swap. }
  split; [exact Hset|]. split; [exact Hperm|].
  exact (proj2 (group_commitment_order_independent LogPoint.zeros32
                  LogPoint.three_pairs [1; 2; 3] [3; 1; 2] Hset Hperm)).
Defined.

(** *** Duplicated indexes *)

Section Duplicates.

Context {Point : Type} `{PointOps Point}.

Implicit Types (pairs : list (Point * Point)) (set rest : list Z).
Implicit Types (m : bytes) (l idx : Z).

Lemma one_byte_index_dec pairs idx :
  {one_byte_index pairs idx} + {~ one_byte_index pairs idx}.
Proof.
  unfold one_byte_index.
  destruct (in_range_dec pairs idx); [|right; tauto].
  destruct (Z_le_dec idx 255); [left|right]; tauto.
Defined.

(** [binding_value] returns only for an index in [1, 255] and a set in
    range, and then returns the binding factor. *)
Lemma binding_value_returns l m pairs set (v : Z) :
  binding_value l m pairs set = Ok v ->
  1 <= l <= 255 /\ Forall (in_range pairs) set /\
  v = binding_factor l m pairs set.
Proof.
  intros Hv.
  destruct (Z_lt_dec l 1) as [Hlo|Hlo].
  { rewrite binding_value_below_1 in Hv by assumption. discriminate. }
  destruct (Z_lt_dec 255 l) as [Hhi|Hhi].
  { rewrite binding_value_above_255 in Hv by assumption. discriminate. }
  assert (Hl : 1 <= l <= 255) by lia.
  destruct (Forall_Exists_dec (in_range pairs) (in_range_dec pairs) set)
    as [Hset|Hset].
  - rewrite binding_value_ok in Hv by assumption.
    inversion Hv. auto.
  - destruct (binding_value_bad_set l m pairs set Hl Hset)
      as (idx & _ & _ & Hr).
    rewrite Hr in Hv. discriminate.
Qed.

(** [group_commitment] fails only on a set with a member that is out of
    range or above 255. *)
Lemma group_commitment_raises m pairs set (e : exn) :
  group_commitment m pairs set = Raise e ->
  Exists (fun idx => ~ one_byte_index pairs idx) set.
Proof.
  intros He.
  destruct (Forall_Exists_dec (one_byte_index pairs)
              (one_byte_index_dec pairs) set) as [Hall|Hex];
    [|exact Hex].
  rewrite group_commitment_ok in He by assumption. discriminate.
Qed.

(** C9.  A participant-index set in which the in-range index l occurs
    twice, [pre ++ l :: mid ++ l :: post], is not rejected for the
    duplicate: [group_commitment] fails only if some member is out of
    range or above 255, and otherwise adds the term
    D_l + (binding value of l) * E_l once per occurrence; the block of l,
    SEC(D_l) then SEC(E_l), appears once per occurrence in the input of
    every binding-value hash. *)
Theorem duplicate_index_counted_per_occurrence m pairs
    (pre mid post : list Z) l :
  let set := pre ++ l :: mid ++ l :: post in
  let term := commitment_term m pairs set l in
  let blocks := flat_map (pair_block pairs) in
  let hash_input i :=
    [Py.byte_of_Z i] ++ m ++
    blocks pre ++ pair_block pairs l ++
    blocks mid ++ pair_block pairs l ++ blocks post in
  in_range pairs l ->
  (exists D E,
      pair_of pairs l = Some (D, E) /\
      pair_block pairs l = sec_serialize D ++ sec_serialize E /\
      term = (D + binding_factor l m pairs set * E)%point) /\
  (forall e, group_commitment m pairs set = Raise e ->
      Exists (fun idx => ~ one_byte_index pairs idx) set) /\
  (Forall (one_byte_index pairs) set ->
     group_commitment m pairs set =
     Ok (accumulate m pairs set post
           (accumulate m pairs set mid
              (accumulate m pairs set pre point_infinity + term)
            + term)%point)) /\
  (forall i, 1 <= i <= 255 -> Forall (in_range pairs) set ->
     binding_value i m pairs set =
     Ok (Py.int_from_bytes (SHA256.digest_of (hash_input i)))) /\
  (forall i v, binding_value i m pairs set = Ok v ->
     v = Py.int_from_bytes (SHA256.digest_of (hash_input i))).
Proof.
  intros set term blocks hash_input Hl.
  assert (Hinput : forall i,
    binding_factor i m pairs set =
    Py.int_from_bytes (SHA256.digest_of (hash_input i))).
  { intros i. unfold binding_factor, binding_preimage.
    subst hash_input blocks set. cbv beta.
    rewrite flat_map_app. cbn [flat_map].
    rewrite flat_map_app. cbn [flat_map].
    rewrite <- ?app_assoc. reflexivity. }
  split; [|split; [|split; [|split]]].
  - destruct (getitem_pair_of _ _ Hl) as (D & E & Hp & _).
    exists D, E. subst term. unfold pair_block, commitment_term.
    rewrite Hp. auto.
  - apply group_commitment_raises.
  - intros Hall. rewrite group_commitment_ok by assumption.
    f_equal. unfold accumulate. subst set.
    rewrite fold_left_app. cbn [fold_left].
    rewrite fold_left_app. cbn [fold_left]. reflexivity.
  - intros i Hi Hset. rewrite binding_value_ok by assumption.
    now rewrite Hinput.
  - intros i v Hv. apply binding_value_returns in Hv as (_ & _ & ->).
    apply Hinput.
Qed.

End Duplicates.

(** The theorem for the set (2, 1, 3, 1) over the three registered pairs:
    index 1 occurs twice. *)
Lemma duplicate_index_counted_per_occurrence_witness :
  in_range LogPoint.three_pairs 1 /\
  Forall (one_byte_index LogPoint.three_pairs) ([2] ++ 1 :: [3] ++ 1 :: []) /\
  group_commitment LogPoint.zeros32 LogPoint.three_pairs [2; 1; 3; 1] =
  Ok (accumulate LogPoint.zeros32 LogPoint.three_pairs [2; 1; 3; 1] []
        (accumulate LogPoint.zeros32 LogPoint.three_pairs [2; 1; 3; 1] [3]
           (accumulate LogPoint.zeros32 LogPoint.three_pairs [2; 1; 3; 1] [2]
              point_infinity +
            commitment_term LogPoint.zeros32 LogPoint.three_pairs
              [2; 1; 3; 1] 1) +
         commitment_term LogPoint.zeros32 LogPoint.three_pairs
           [2; 1; 3; 1] 1)%point).
Proof.
  assert (Hl : in_range LogPoint.three_pairs 1) by (unfold in_range; cbn; lia).
  assert (Hall : Forall (one_byte_index LogPoint.three_pairs)
                   ([2] ++ 1 :: [3] ++ 1 :: []))
    by (repeat constructor; cbn; lia).
  split; [exact Hl|]. split; [exact Hall|].
  pose proof (duplicate_index_counted_per_occurrence LogPoint.zeros32
                LogPoint.three_pairs [2] [3] [] 1 Hl) as (_ & _ & Hok & _).
  exact (Hok Hall).
Defined.

(** A run of the duplicated set: the term of participant 1 is added
    twice, so the result differs from that on the set (2, 1, 3). *)
Example duplicate_index_changes_the_commitment :
  (exists R, group_commitment LogPoint.zeros32 LogPoint.three_pairs
               [2; 1; 3; 1] = Ok R) /\
  group_commitment LogPoint.zeros32 LogPoint.three_pairs [2; 1; 3; 1] <>
  group_commitment LogPoint.zeros32 LogPoint.three_pairs [2; 1; 3].
Proof.
  split.
  - eexists. vm_compute. reflexivity.
  - vm_compute. discriminate.
Qed.

(** ** The signature *)

Lemma firstn_skipn_app_length {A : Type} (a b : list A) (n : nat) :
  List.length a = n -> firstn n (a ++ b) = a /\ skipn n (a ++ b) = b.
Proof.
  intros <-. induction a as [|x a [IHf IHs]]; [now split|].
  cbn [List.length firstn skipn List.app]. now rewrite IHf, IHs.
Qed.

Lemma sum_fold_right (t : list Z) : Py.sum t = fold_right Z.add 0 t.
Proof.
  unfold Py.sum.
  assert (Hgen : forall a, fold_left Z.add t a = a + fold_right Z.add 0 t).
  { induction t as [|x t IH]; intros a; cbn [fold_left fold_right];
      [lia | rewrite IH; lia]. }
  now rewrite Hgen.
Qed.

Lemma scalar_range (signature_shares : list Z) :
  0 <= Py.sum signature_shares mod Q < Q.
Proof. apply Z.mod_pos_bound, Q_pos. Qed.

Lemma scalar_to_bytes (signature_shares : list Z) :
  Py.int_to_bytes (Py.sum signature_shares mod Q) 32 =
  Ok (Py.be_bytes 32 (Py.sum signature_shares mod Q)).
Proof.
  apply PyFacts.int_to_bytes_ok.
  pose proof (scalar_range signature_shares). pose proof Q_fits_32_bytes.
  lia.
Qed.

Lemma scalar_from_bytes (signature_shares : list Z) :
  Py.int_from_bytes (Py.be_bytes 32 (Py.sum signature_shares mod Q)) =
  Py.sum signature_shares mod Q.
Proof.
  rewrite PyFacts.int_from_bytes_be_bytes. apply Z.mod_small.
  pose proof (scalar_range signature_shares). pose proof Q_fits_32_bytes.
  lia.
Qed.

Section Signature.

Context {Point : Type} `{XOnly32 Point}.

Implicit Types (self : Aggregator Point) (shares : list Z).

Lemma signature_returns self shares (R : Point) :
  own_commitment self = Ok R ->
  signature self shares =
  Ok (Py.hex (xonly_serialize R ++
              Py.be_bytes 32 (Py.sum shares mod Q))).
Proof.
  unfold own_commitment, signature. intros ->. cbn [bind].
  now rewrite scalar_to_bytes.
Qed.

Lemma signature_raises self shares (e : exn) :
  signature self shares = Raise e <-> own_commitment self = Raise e.
Proof.
  destruct (own_commitment self) as [R|e'] eqn:HR.
  - rewrite (signature_returns _ _ _ HR). split; discriminate.
  - unfold own_commitment in HR. unfold signature. rewrite HR.
    cbn [bind]. split; intros E; inversion E; reflexivity.
Qed.

Lemma own_commitment_well_indexed self :
  well_indexed self ->
  own_commitment self =
  Ok (accumulate (message self) (nonce_commitment_pairs self)
        (participant_indexes self) (participant_indexes self)
        point_infinity).
Proof. apply group_commitment_ok. Qed.

(** C3, as amended.  For an Aggregator whose participant indexes all lie
    in [1, n] and are at most 255, and every tuple of integer shares,
    [signature] returns a string of 128 lowercase hexadecimal characters
    that decodes to 64 bytes: the first 32 are the x-only serialization
    of the group commitment, the last 32 the big-endian encoding of
    sum(shares) mod Q, thirty-two zero bytes when the sum is 0 modulo
    Q. *)
Theorem signature_layout self shares :
  well_indexed self ->
  exists (R : Point) (sig : bytes),
    own_commitment self = Ok R /\
    signature self shares = Ok (Py.hex sig) /\
    String.length (Py.hex sig) = 128%nat /\
    Py.string_forallb Py.is_lower_hex (Py.hex sig) = true /\
    Py.fromhex (Py.hex sig) = Some sig /\
    List.length sig = 64%nat /\
    firstn 32 sig = xonly_serialize R /\
    skipn 32 sig = Py.be_bytes 32 (Py.sum shares mod Q) /\
    Py.int_from_bytes (skipn 32 sig) = Py.sum shares mod Q /\
    (Py.sum shares mod Q = 0 -> skipn 32 sig = repeat x00 32).
Proof.
  intros Hidx.
  pose proof (own_commitment_well_indexed self Hidx) as HR.
  set (R := accumulate _ _ _ _ _) in HR.
  set (z := Py.sum shares mod Q).
  exists R, (xonly_serialize R ++ Py.be_bytes 32 z).
  destruct (firstn_skipn_app_length (xonly_serialize R)
              (Py.be_bytes 32 z) 32 (xonly_serialize_length R))
    as [Hfirst Hlast].
  assert (Hlen : List.length (xonly_serialize R ++ Py.be_bytes 32 z)
                 = 64%nat)
    by (rewrite length_app, xonly_serialize_length,
          PyFacts.be_bytes_length; reflexivity).
  split; [exact HR|].
  split; [now apply signature_returns|].
  split; [rewrite PyFacts.hex_length, Hlen; reflexivity|].
  split; [apply PyFacts.hex_lower|].
  split; [apply PyFacts.fromhex_hex|].
  split; [exact Hlen|].
  split; [exact Hfirst|].
  split; [exact Hlast|].
  split; [rewrite Hlast; apply scalar_from_bytes|].
  intros Hz. rewrite Hlast, Hz. apply PyFacts.be_bytes_32_0.
Qed.

(** C7, as amended.  For an Aggregator whose participant indexes all lie
    in [1, n] and are at most 255, [signature] returns for every tuple of
    integer shares, whatever the shares are.  No share is validated: for
    any Aggregator, an error of [signature] is the error of the group
    commitment, which does not see the shares, and two tuples with the
    same sum modulo Q give the same outcome. *)
Theorem signature_validates_no_share self shares :
  (well_indexed self ->
   exists R : Point,
     own_commitment self = Ok R /\
     signature self shares =
     Ok (Py.hex (xonly_serialize R ++
                 Py.be_bytes 32 (Py.sum shares mod Q)))) /\
  (forall e, signature self shares = Raise e ->
             own_commitment self = Raise e) /\
  (forall shares',
      Py.sum shares' mod Q = Py.sum shares mod Q ->
      signature self shares' = signature self shares).
Proof.
  split; [|split].
  - intros Hidx. eexists. split.
    + now apply own_commitment_well_indexed.
    + now apply signature_returns, own_commitment_well_indexed.
  - intros e. apply signature_raises.
  - intros shares' Hsum. unfold signature. now rewrite Hsum.
Qed.

(** C10.  For every tuple of integer shares, negative ones and ones at or
    above Q included, the scalar [signature] aggregates is the residue of
    the sum of the shares modulo Q: it lies in [0, Q) and differs from
    the sum by a multiple of Q.  It fits 32 bytes, and every signature
    returned ends with its 32-byte big-endian encoding, from which it is
    read back. *)
Theorem aggregated_scalar_is_canonical shares :
  let z := Py.sum shares mod Q in
  Py.sum shares = fold_right Z.add 0 shares /\
  0 <= z < Q /\
  (exists k, Py.sum shares = k * Q + z) /\
  Py.int_to_bytes z 32 = Ok (Py.be_bytes 32 z) /\
  Py.int_from_bytes (Py.be_bytes 32 z) = z /\
  List.length (Py.be_bytes 32 z) = 32%nat /\
  (forall self s,
      signature self shares = Ok s ->
      exists R : Point,
        own_commitment self = Ok R /\
        s = Py.hex (xonly_serialize R ++ Py.be_bytes 32 z) /\
        Py.fromhex s = Some (xonly_serialize R ++ Py.be_bytes 32 z)).
Proof.
  intros z.
  split; [apply sum_fold_right|].
  split; [apply scalar_range|].
  split.
  { exists (Py.sum shares / Q). subst z.
    pose proof (Z.div_mod (Py.sum shares) Q) as Hdm.
    pose proof Q_pos. lia. }
  split; [apply scalar_to_bytes|].
  split; [apply scalar_from_bytes|].
  split; [apply PyFacts.be_bytes_length|].
  intros self s Hs.
  destruct (own_commitment self) as [R|e] eqn:HR.
  - rewrite (signature_returns _ _ _ HR) in Hs.
    inversion Hs as [Hs']. clear Hs.
    exists R. split; [reflexivity|]. split; [reflexivity|].
    apply PyFacts.fromhex_hex.
  - apply (signature_raises self shares) in HR.
    rewrite HR in Hs. discriminate.
Qed.

End Signature.

#[global] Instance LogPoint_xonly32 : XOnly32 LogPoint.t.
Proof. intros P. apply PyFacts.be_bytes_length. Defined.

Lemma aggregator_12_well_indexed : well_indexed LogPoint.aggregator_12.
Proof. repeat constructor; cbn; lia. Defined.

(** The theorem for three registered pairs, the set (1, 2) and the shares
    (Q - 1, 1), whose sum is 0 modulo Q. *)
Lemma signature_layout_witness :
  well_indexed LogPoint.aggregator_12 /\
  exists (R : LogPoint.t) (sig : bytes),
    own_commitment LogPoint.aggregator_12 = Ok R /\
    signature LogPoint.aggregator_12 [Q - 1; 1] = Ok (Py.hex sig) /\
    String.length (Py.hex sig) = 128%nat /\
    firstn 32 sig = xonly_serialize R /\
    skipn 32 sig = repeat x00 32.
Proof.
  split; [exact aggregator_12_well_indexed|].
  destruct (signature_layout LogPoint.aggregator_12 [Q - 1; 1]
              aggregator_12_well_indexed)
    as (R & sig & HR & Hsig & Hlen & _ & _ & _ & Hfirst & _ & _ & Hzero).
  exists R, sig.
  split; [exact HR|]. split; [exact Hsig|]. split; [exact Hlen|].
  split; [exact Hfirst|]. apply Hzero. vm_compute. reflexivity.
Defined.

(** C3 as stated fails.  With 256 registered pairs the participant index
    256 is in range, and [signature] raises [OverflowError] instead of
    returning a string. *)
Lemma signature_fails_on_in_range_index_256 :
  Forall (in_range (nonce_commitment_pairs LogPoint.aggregator_256))
    (participant_indexes LogPoint.aggregator_256) /\
  signature LogPoint.aggregator_256 [1; 2] = Raise OverflowError.
Proof.
  split.
  - repeat constructor; cbn; lia.
  - vm_compute. reflexivity.
Qed.

(** The theorem for three registered pairs, the set (1, 2) and shares that
    no signer would produce: a negative one, one above Q, one above
    2^256. *)
Lemma signature_validates_no_share_witness :
  well_indexed LogPoint.aggregator_12 /\
  exists R : LogPoint.t,
    own_commitment LogPoint.aggregator_12 = Ok R /\
    signature LogPoint.aggregator_12 [-5; Q + 7; 2 ^ 300] =
    Ok (Py.hex (xonly_serialize R ++
                Py.be_bytes 32 (Py.sum [-5; Q + 7; 2 ^ 300] mod Q))).
Proof.
  split; [exact aggregator_12_well_indexed|].
  exact (proj1 (signature_validates_no_share LogPoint.aggregator_12
                  [-5; Q + 7; 2 ^ 300]) aggregator_12_well_indexed).
Defined.

(** C7 as stated fails.  The participant indexes (1, 256) of 256
    registered pairs are all in range, and [signature] does not return:
    it raises [OverflowError], whatever the shares. *)
Lemma signature_does_not_return_for_index_256 :
  Forall (in_range (nonce_commitment_pairs LogPoint.aggregator_1_256))
    (participant_indexes LogPoint.aggregator_1_256) /\
  signature LogPoint.aggregator_1_256 [3; 4] = Raise OverflowError /\
  ~ (exists s, signature LogPoint.aggregator_1_256 [3; 4] = Ok s).
Proof.
  assert (Hr : signature LogPoint.aggregator_1_256 [3; 4] =
               Raise OverflowError) by (vm_compute; reflexivity).
  split; [repeat constructor; cbn; lia|]. split; [exact Hr|].
  intros [s Hs]. rewrite Hr in Hs. discriminate.
Qed.

(** The theorem for the shares (-5, Q + 7), whose sum is 2 modulo Q, in a
    signature of three registered pairs and the set (1, 2). *)
Lemma aggregated_scalar_is_canonical_witness :
  Py.sum [-5; Q + 7] mod Q = 2 /\
  exists s,
    signature LogPoint.aggregator_12 [-5; Q + 7] = Ok s /\
    exists R : LogPoint.t,
      own_commitment LogPoint.aggregator_12 = Ok R /\
      s = Py.hex (xonly_serialize R ++
                  Py.be_bytes 32 (Py.sum [-5; Q + 7] mod Q)) /\
      Py.fromhex s =
        Some (xonly_serialize R ++
              Py.be_bytes 32 (Py.sum [-5; Q + 7] mod Q)).
Proof.
  split; [vm_compute; reflexivity|].
  pose proof (signature_returns LogPoint.aggregator_12 [-5; Q + 7] _
                (own_commitment_well_indexed LogPoint.aggregator_12
                   aggregator_12_well_indexed)) as Hs.
  eexists. split; [exact Hs|].
  pose proof (aggregated_scalar_is_canonical (Point := LogPoint.t)
                [-5; Q + 7]) as (_ & _ & _ & _ & _ & _ & Hsig).
  exact (Hsig LogPoint.aggregator_12 _ Hs).
Defined.

(** A run of the aggregator: three registered pairs, the message of 32
    zero bytes, the set (1, 2), shares summing to 0 modulo Q. *)
Example signature_run :
  exists s,
    signature LogPoint.aggregator_12 [Q - 1; 1] = Ok s /\
    String.length s = 128%nat /\
    substring 64 64 s =
      "0000000000000000000000000000000000000000000000000000000000000000"%string.
Proof. eexists. vm_compute. repeat split. Qed.


(** * Further properties of the aggregator *)

(** ** Which inputs are accepted, which error is reported *)

Section Outcomes.

Context {Point : Type} `{PointOps Point}.

Implicit Types (pairs : list (Point * Point)) (set rest pre post : list Z).
Implicit Types (m : bytes) (l idx bad first : Z).

(** A set with a member out of range splits at the first such member. *)
Lemma first_out_of_range pairs set :
  Exists (fun idx => ~ in_range pairs idx) set ->
  exists pre bad post,
    set = pre ++ bad :: post /\
    Forall (in_range pairs) pre /\ ~ in_range pairs bad.
Proof.
  induction set as [|i set IH]; intros Hex; [inversion Hex|].
  destruct (in_range_dec pairs i) as [Hi|Hi].
  - inversion Hex as [? ? Hbad|? ? Hbad]; subst; [contradiction|].
    destruct (IH Hbad) as (pre & bad & post & -> & Hpre & Hout).
    exists (i :: pre), bad, post. repeat split; auto.
  - exists [], i, set. repeat split; auto.
Qed.

(** The loop of [binding_value] stops at the first member out of range and
    names it. *)
Lemma binding_value_loop_first_bad pairs pre bad post (acc : list bytes) :
  Forall (in_range pairs) pre ->
  ~ in_range pairs bad ->
  binding_value_loop pairs (pre ++ bad :: post) acc =
  Raise (ValueError_nonce_commitments bad).
Proof.
  intros Hpre Hbad. revert acc.
  induction Hpre as [|i pre Hi _ IH]; intros acc;
    cbn [List.app binding_value_loop].
  - now rewrite (guard_out_of_range _ _ Hbad).
  - rewrite (guard_in_range _ _ Hi).
    destruct (getitem_pair_of _ _ Hi) as (D & E & _ & ->).
    cbn [bind]. apply IH.
Qed.

Lemma binding_value_first_bad l m pairs pre bad post :
  1 <= l <= 255 ->
  Forall (in_range pairs) pre ->
  ~ in_range pairs bad ->
  binding_value l m pairs (pre ++ bad :: post) =
  Raise (ValueError_nonce_commitments bad).
Proof.
  intros Hl Hpre Hbad. unfold binding_value.
  destruct (Z.ltb_spec l 1); [lia|].
  rewrite PyFacts.int_to_bytes_1 by lia. cbn [bind].
  now rewrite binding_value_loop_first_bad.
Qed.

(** The first iteration of [group_commitment] on an index out of range. *)
Lemma group_commitment_first_out_of_range m pairs first rest :
  ~ in_range pairs first ->
  group_commitment m pairs (first :: rest) =
  Raise (ValueError_participant_index first).
Proof.
  intros Hout. unfold group_commitment. cbn [group_commitment_loop].
  now rewrite (guard_out_of_range _ _ Hout).
Qed.

(** The first iteration of [group_commitment] passes on what
    [binding_value] raises. *)
Lemma group_commitment_first_binding_raises m pairs first rest (e : exn) :
  in_range pairs first ->
  binding_value first m pairs (first :: rest) = Raise e ->
  group_commitment m pairs (first :: rest) = Raise e.
Proof.
  intros Hin Hbv. unfold group_commitment. cbn [group_commitment_loop].
  rewrite (guard_in_range _ _ Hin), Hbv. reflexivity.
Qed.

(** Every way [group_commitment] fails on a set with a member that is out
    of range or above 255. *)
Lemma group_commitment_fails m pairs set :
  Exists (fun idx => ~ one_byte_index pairs idx) set ->
  exists e, group_commitment m pairs set = Raise e /\
    (e = ValueError_participant_index (List.hd 0 set) \/
     e = OverflowError \/
     exists idx, In idx set /\ ~ in_range pairs idx /\
                 e = ValueError_nonce_commitments idx).
Proof.
  intros Hex.
  destruct set as [|first rest]; [inversion Hex|]. cbn [List.hd].
  destruct (in_range_dec pairs first) as [Hfirst|Hfirst].
  2:{ eexists. split; [now apply group_commitment_first_out_of_range|].
      now left. }
  destruct (Z_lt_dec 255 first) as [Hbig|Hsmall].
  { exists OverflowError. split; [|now right; left].
    apply group_commitment_first_binding_raises; [assumption|].
    now apply binding_value_above_255. }
  destruct (Forall_Exists_dec (in_range pairs) (in_range_dec pairs)
              (first :: rest)) as [Hall|Hbad].
  - exists OverflowError. split; [|now right; left].
    apply group_commitment_loop_overflows; try assumption.
    apply Exists_exists in Hex as (idx & Hidx & Hnot).
    apply Exists_exists. exists idx. split; [assumption|].
    rewrite Forall_forall in Hall. specialize (Hall idx Hidx).
    destruct (Z_lt_dec 255 idx) as [Hgt|Hle]; [assumption|].
    exfalso. apply Hnot. split; [assumption|lia].
  - destruct (first_out_of_range _ _ Hbad)
      as (pre & bad & post & Heq & Hpre & Hout).
    exists (ValueError_nonce_commitments bad). split.
    + apply group_commitment_first_binding_raises; [assumption|].
      rewrite Heq. apply binding_value_first_bad; try assumption.
      unfold in_range in Hfirst. lia.
    + right; right. exists bad. repeat split; [|assumption].
      rewrite Heq. apply in_elt.
Qed.

(** [group_commitment] returns only on a set whose members are all in
    range and at most 255. *)
Lemma group_commitment_returns m pairs set (R : Point) :
  group_commitment m pairs set = Ok R ->
  Forall (one_byte_index pairs) set /\
  R = accumulate m pairs set set point_infinity.
Proof.
  intros HR.
  destruct (Forall_Exists_dec (one_byte_index pairs)
              (one_byte_index_dec pairs) set) as [Hall|Hex].
  - split; [assumption|].
    rewrite group_commitment_ok in HR by assumption. now inversion HR.
  - destruct (group_commitment_fails m pairs set Hex) as (e & He & _).
    rewrite He in HR. discriminate.
Qed.

(** X1.  [binding_value] returns exactly when its index is in [1, 255] and
    every member of the participant-index set is in [1, n]; what it
    returns is then the binding factor. *)
Theorem binding_value_returns_iff l m pairs set (v : Z) :
  binding_value l m pairs set = Ok v <->
  1 <= l <= 255 /\ Forall (in_range pairs) set /\
  v = binding_factor l m pairs set.
Proof.
  split.
  - apply binding_value_returns.
  - intros (Hl & Hset & ->). now apply binding_value_ok.
Qed.

(** X2.  When the participant-index set has members out of range,
    [binding_value], called with an index in [1, 255], reports the first
    of them in the order of the set, whatever follows it. *)
Theorem binding_value_reports_first_bad_index l m pairs pre bad post :
  1 <= l <= 255 ->
  Forall (in_range pairs) pre ->
  ~ in_range pairs bad ->
  binding_value l m pairs (pre ++ bad :: post) =
  Raise (ValueError_nonce_commitments bad).
Proof. apply binding_value_first_bad. Qed.

(** X3.  Which error [group_commitment] reports on the set
    [first :: rest].  Its own "Participant index out of range" error is
    raised only for the first index of the set.  When the first index is
    in range and above 255 the one-byte encoding fails first.  Otherwise an
    index out of range anywhere in the set is reported by the first call
    of [binding_value], as "out of range for nonce commitments", before
    any term is added. *)
Theorem group_commitment_error_precedence m pairs first rest :
  (~ in_range pairs first ->
   group_commitment m pairs (first :: rest) =
   Raise (ValueError_participant_index first)) /\
  (in_range pairs first -> 255 < first ->
   group_commitment m pairs (first :: rest) = Raise OverflowError) /\
  (one_byte_index pairs first ->
   forall pre bad post,
     first :: rest = pre ++ bad :: post ->
     Forall (in_range pairs) pre -> ~ in_range pairs bad ->
     group_commitment m pairs (first :: rest) =
     Raise (ValueError_nonce_commitments bad)) /\
  (forall idx,
     group_commitment m pairs (first :: rest) =
     Raise (ValueError_participant_index idx) -> idx = first).
Proof.
  split; [apply group_commitment_first_out_of_range|].
  split.
  { intros Hin Hbig.
    apply group_commitment_first_binding_raises; [assumption|].
    now apply binding_value_above_255. }
  split.
  { intros [Hin Hsmall] pre bad post Heq Hpre Hout.
    apply group_commitment_first_binding_raises; [assumption|].
    rewrite Heq. apply binding_value_first_bad; try assumption.
    unfold in_range in Hin. lia. }
  intros idx He.
  assert (Hex : Exists (fun i => ~ one_byte_index pairs i) (first :: rest))
    by (eapply group_commitment_raises; exact He).
  destruct (group_commitment_fails m pairs _ Hex) as (e' & He' & Hkind).
  rewrite He in He'. inversion He' as [Hee]. subst e'.
  cbn [List.hd] in Hkind.
  destruct Hkind as [Hk|[Hk|(i & _ & _ & Hk)]];
    [now inversion Hk | discriminate | discriminate].
Qed.

(** X4.  [group_commitment] returns a point exactly when every index of the
    set is in [1, n] and at most 255; the point is then the sum of the
    terms in the order of the set. *)
Theorem group_commitment_returns_iff m pairs set (R : Point) :
  group_commitment m pairs set = Ok R <->
  Forall (one_byte_index pairs) set /\
  R = accumulate m pairs set set point_infinity.
Proof.
  split.
  - apply group_commitment_returns.
  - intros (Hall & ->). now apply group_commitment_ok.
Qed.

(** X5.  No subscript of the aggregator ever leaves the tuple: whatever
    the inputs, [binding_value] and [group_commitment] raise, if they
    raise, a [ValueError] of the module or the [OverflowError] of the
    one-byte encoding, never [IndexError]. *)
Theorem aggregator_never_raises_IndexError l m pairs set (e : exn) :
  (binding_value l m pairs set = Raise e ->
   is_IndexOutOfRange e = true \/ e = OverflowError) /\
  (group_commitment m pairs set = Raise e ->
   is_IndexOutOfRange e = true \/ e = OverflowError).
Proof.
  split; intros He.
  - destruct (Z_lt_dec l 1) as [Hlo|Hlo].
    { rewrite binding_value_below_1 in He by assumption.
      inversion He. now left. }
    destruct (Z_lt_dec 255 l) as [Hhi|Hhi].
    { rewrite binding_value_above_255 in He by assumption.
      inversion He. now right. }
    assert (Hl : 1 <= l <= 255) by lia.
    destruct (Forall_Exists_dec (in_range pairs) (in_range_dec pairs) set)
      as [Hset|Hset].
    + rewrite binding_value_ok in He by assumption. discriminate.
    + destruct (binding_value_bad_set l m pairs set Hl Hset)
        as (idx & _ & _ & Hr).
      rewrite Hr in He. inversion He. now left.
  - assert (Hex : Exists (fun i => ~ one_byte_index pairs i) set)
      by (eapply group_commitment_raises; exact He).
    destruct (group_commitment_fails m pairs set Hex) as (e' & He' & Hkind).
    rewrite He in He'. inversion He' as [Hee]. subst e'.
    destruct Hkind as [->|[->|(i & _ & _ & ->)]];
      [now left | now right | now left].
Qed.

End Outcomes.

(** ** What the results depend on *)

Section Dependence.

Context {Point : Type} `{PointOps Point}.

Implicit Types (pairs : list (Point * Point)) (set rest : list Z).
Implicit Types (m : bytes) (l idx : Z).

Lemma blocks_agree pairs pairs' set :
  (forall idx, In idx set -> pair_of pairs idx = pair_of pairs' idx) ->
  flat_map (pair_block pairs) set = flat_map (pair_block pairs') set.
Proof.
  induction set as [|i set IH]; intros Hag; [reflexivity|].
  cbn [flat_map]. rewrite IH by (intros; apply Hag; now right).
  unfold pair_block. now rewrite (Hag i (in_eq _ _)).
Qed.

Lemma binding_factor_agree l m pairs pairs' set :
  (forall idx, In idx set -> pair_of pairs idx = pair_of pairs' idx) ->
  binding_factor l m pairs set = binding_factor l m pairs' set.
Proof.
  intros Hag. unfold binding_factor, binding_preimage.
  now rewrite (blocks_agree _ _ _ Hag).
Qed.

Lemma accumulate_agree m pairs pairs' set rest (acc : Point) :
  (forall idx, In idx set -> pair_of pairs idx = pair_of pairs' idx) ->
  incl rest set ->
  accumulate m pairs set rest acc = accumulate m pairs' set rest acc.
Proof.
  intros Hag. unfold accumulate. revert acc.
  induction rest as [|i rest IH]; intros acc Hincl; [reflexivity|].
  cbn [fold_left].
  assert (Hi : In i set) by (apply Hincl, in_eq).
  assert (Ht : commitment_term m pairs set i =
               commitment_term m pairs' set i).
  { unfold commitment_term.
    now rewrite (Hag i Hi), (binding_factor_agree i m _ _ _ Hag). }
  rewrite Ht. apply IH. intros j Hj. apply Hincl. now right.
Qed.

Lemma one_byte_transfer pairs pairs' set :
  Forall (one_byte_index pairs) set ->
  Forall (in_range pairs') set ->
  Forall (one_byte_index pairs') set.
Proof.
  intros H1 H2. rewrite Forall_forall in *.
  intros idx Hin. split; [now apply H2 | now apply H1].
Qed.

Lemma one_byte_or_above_255 pairs set :
  Forall (in_range pairs) set ->
  Forall (one_byte_index pairs) set \/ Exists (fun idx => 255 < idx) set.
Proof.
  induction 1 as [|idx set Hidx _ [IH|IH]].
  - left. constructor.
  - destruct (Z_lt_dec 255 idx).
    + right. now constructor.
    + left. constructor; [split; [assumption|lia] | assumption].
  - right. now constructor 2.
Qed.

(** X6.  The binding value depends on the commitment sequence only through
    the pairs of the participants in the set: two sequences in which the
    set is in range and which hold the same pair at every index of the
    set give the same result, for every index [l], error or value. *)
Theorem binding_value_ignores_other_pairs l m pairs pairs' set :
  Forall (in_range pairs) set ->
  Forall (in_range pairs') set ->
  (forall idx, In idx set -> pair_of pairs idx = pair_of pairs' idx) ->
  binding_value l m pairs set = binding_value l m pairs' set.
Proof.
  intros Hset Hset' Hag.
  destruct (Z_lt_dec l 1) as [Hlo|Hlo].
  { now rewrite !binding_value_below_1. }
  destruct (Z_lt_dec 255 l) as [Hhi|Hhi].
  { now rewrite !binding_value_above_255. }
  rewrite !binding_value_ok by (assumption || lia).
  f_equal. now apply binding_factor_agree.
Qed.

(** X7.  The group commitment depends on the commitment sequence only
    through the pairs of the participants in the set: the commitments of
    registered signers that do not take part change nothing, error or
    point. *)
Theorem group_commitment_ignores_other_pairs m pairs pairs' set :
  Forall (in_range pairs) set ->
  Forall (in_range pairs') set ->
  (forall idx, In idx set -> pair_of pairs idx = pair_of pairs' idx) ->
  group_commitment m pairs set = group_commitment m pairs' set.
Proof.
  intros Hset Hset' Hag.
  destruct (one_byte_or_above_255 pairs set Hset) as [Hall|Hbig].
  - rewrite (group_commitment_ok m pairs set Hall).
    rewrite (group_commitment_ok m pairs' set
               (one_byte_transfer _ _ _ Hall Hset')).
    f_equal. apply accumulate_agree; [assumption|apply incl_refl].
  - unfold group_commitment.
    now rewrite !group_commitment_loop_overflows.
Qed.

(** X8.  The hash input of [binding_value] is a plain concatenation: the
    message is not framed, so the block of the first index of the set can
    be moved to the end of the message without changing the binding
    value. *)
Theorem binding_value_message_not_framed l m pairs idx set :
  Forall (in_range pairs) (idx :: set) ->
  binding_value l m pairs (idx :: set) =
  binding_value l (m ++ pair_block pairs idx) pairs set.
Proof.
  intros Hall.
  destruct (Z_lt_dec l 1) as [Hlo|Hlo].
  { now rewrite !binding_value_below_1. }
  destruct (Z_lt_dec 255 l) as [Hhi|Hhi].
  { now rewrite !binding_value_above_255. }
  rewrite !binding_value_ok
    by (assumption || lia || now inversion Hall).
  unfold binding_factor, binding_preimage. cbn [flat_map].
  now rewrite <- !app_assoc.
Qed.

End Dependence.

(** ** The shares and the shared secret *)

Lemma sum_app (a b : list Z) : Py.sum (a ++ b) = Py.sum a + Py.sum b.
Proof.
  rewrite !sum_fold_right.
  induction a as [|x a IH]; cbn [List.app fold_right]; [lia|].
  rewrite IH. lia.
Qed.

Lemma sum_cons (x : Z) (t : list Z) : Py.sum (x :: t) = x + Py.sum t.
Proof. now rewrite !sum_fold_right. Qed.

Lemma sum_permutation (a b : list Z) :
  Permutation a b -> Py.sum a = Py.sum b.
Proof.
  induction 1 as [|x a b _ IH|x y a|a b c _ IHab _ IHbc].
  - reflexivity.
  - now rewrite !sum_cons, IH.
  - rewrite !sum_cons. lia.
  - now rewrite IHab.
Qed.

Section Shares.

Context {Point : Type} `{PointOps Point}.

Implicit Types (self : Aggregator Point) (shares : list Z).

(** [signature] sees the shares only through their sum modulo Q. *)
Lemma signature_sum_congruence self shares shares' :
  Py.sum shares mod Q = Py.sum shares' mod Q ->
  signature self shares = signature self shares'.
Proof. intros Hsum. unfold signature. now rewrite Hsum. Qed.

(** X9.  [signature] returns, for any shares, exactly when every
    participant index of the Aggregator is in [1, n] and at most 255. *)
Theorem signature_returns_iff self shares :
  (exists s, signature self shares = Ok s) <-> well_indexed self.
Proof.
  split.
  - intros [s Hs].
    destruct (own_commitment self) as [R|e] eqn:HR.
    + now apply group_commitment_returns in HR as [Hall _].
    + apply (signature_raises self shares) in HR.
      rewrite HR in Hs. discriminate.
  - intros Hidx. eexists.
    apply signature_returns, own_commitment_well_indexed, Hidx.
Qed.

(** X10.  The order in which the shares are handed to [signature] does not
    matter: a permutation of the shares gives the same outcome. *)
Theorem signature_share_order_irrelevant self shares shares' :
  Permutation shares shares' ->
  signature self shares = signature self shares'.
Proof.
  intros Hperm. apply signature_sum_congruence.
  now rewrite (sum_permutation _ _ Hperm).
Qed.

(** X11.  Shares can be aggregated in stages: replacing a group of shares
    by their sum modulo Q, as a previous aggregation would have produced
    it, gives the same signature. *)
Theorem signature_partial_aggregation self (group others : list Z) :
  signature self (group ++ others) =
  signature self (Py.sum group mod Q :: others).
Proof.
  apply signature_sum_congruence.
  rewrite sum_app, sum_cons. now rewrite Zplus_mod_idemp_l.
Qed.

(** X12.  An Aggregator with an empty participant-index set signs without
    an error, whatever the sequence and the shares: the signature is built
    from the point at infinity, and with no share at all its second half
    is 32 zero bytes. *)
Theorem signature_of_empty_set m (pairs : list (Point * Point)) shares :
  let self :=
    {| message := m; nonce_commitment_pairs := pairs;
       participant_indexes := [] |} in
  signature self shares =
    Ok (Py.hex (xonly_serialize point_infinity ++
                Py.be_bytes 32 (Py.sum shares mod Q))) /\
  signature self [] =
    Ok (Py.hex (xonly_serialize point_infinity ++ repeat x00 32)).
Proof.
  intros self.
  assert (HR : own_commitment self = Ok point_infinity) by reflexivity.
  split.
  - now apply signature_returns.
  - rewrite (signature_returns self [] _ HR).
    change (Py.sum [] mod Q) with 0. now rewrite PyFacts.be_bytes_32_0.
Qed.

End Shares.

Section SharedSecret.

Context {Point : Type} `{AbelianAdd Point}.

(** X13.  [derive_shared_secret] does not depend on the order of the
    shares, curve addition being commutative and associative. *)
Theorem derive_shared_secret_order_irrelevant
    (shared_secret_shares reordered : list Point) :
  Permutation shared_secret_shares reordered ->
  derive_shared_secret shared_secret_shares =
  derive_shared_secret reordered.
Proof.
  unfold derive_shared_secret. generalize (point_infinity (Point := Point)).
  intros acc Hperm. revert acc.
  induction Hperm as [|P a b _ IH|P R a|a b c _ IHab _ IHbc]; intros acc.
  - reflexivity.
  - cbn [fold_left]. apply IH.
  - cbn [fold_left]. now rewrite point_add_swap.
  - now rewrite IHab.
Qed.

(** X14.  The shared secret of two batches of shares is that of the
    second batch started from the secret of the first; with an identity
    that is neutral on the left it is the sum of the two secrets. *)
Theorem derive_shared_secret_of_batches (first second : list Point) :
  (forall P : Point, (point_infinity + P)%point = P) ->
  derive_shared_secret (first ++ second) =
  (derive_shared_secret first + derive_shared_secret second)%point.
Proof.
  intros Hneutral. unfold derive_shared_secret.
  rewrite fold_left_app. generalize (fold_left
    (fun s share : Point => (s + share)%point) first point_infinity).
  intros acc. revert acc.
  induction second as [|P second IH] using rev_ind; intros acc.
  - cbn [fold_left]. rewrite point_add_comm. symmetry. apply Hneutral.
  - rewrite !fold_left_app. cbn [fold_left].
    now rewrite IH, point_add_assoc.
Qed.

End SharedSecret.

(** ** The further properties on concrete inputs *)

Lemma three_pairs_12_in_range :
  Forall (in_range LogPoint.three_pairs) [1; 2].
Proof. repeat constructor; cbn; lia. Defined.

(** A fourth registered pair leaves the pairs of participants 1 and 2
    where they are. *)
Lemma same_pairs_at_1_and_2 :
  forall idx, In idx [2; 1] ->
    pair_of LogPoint.three_pairs idx =
    pair_of (LogPoint.three_pairs ++ [(LogPoint.Log 8, LogPoint.Log 9)]) idx.
Proof. intros idx [<-|[<-|[]]]; reflexivity. Defined.

Lemma binding_value_returns_iff_witness :
  (1 <= 2 <= 255 /\ Forall (in_range LogPoint.three_pairs) [1; 3]) /\
  binding_value 2 LogPoint.zeros32 LogPoint.three_pairs [1; 3] =
  Ok (binding_factor 2 LogPoint.zeros32 LogPoint.three_pairs [1; 3]).
Proof.
  assert (Hl : 1 <= 2 <= 255) by lia.
  assert (Hset : Forall (in_range LogPoint.three_pairs) [1; 3])
    by (repeat constructor; cbn; lia).
  split; [split; assumption|].
  apply (proj2 (binding_value_returns_iff 2 LogPoint.zeros32
                  LogPoint.three_pairs [1; 3] _)).
  split; [exact Hl | split; [exact Hset | reflexivity]].
Defined.

Lemma binding_value_reports_first_bad_index_witness :
  (1 <= 1 <= 255 /\ Forall (in_range LogPoint.three_pairs) [2] /\
   ~ in_range LogPoint.three_pairs 7) /\
  binding_value 1 LogPoint.zeros32 LogPoint.three_pairs ([2] ++ 7 :: [0]) =
  Raise (ValueError_nonce_commitments 7).
Proof.
  assert (Hl : 1 <= 1 <= 255) by lia.
  assert (Hpre : Forall (in_range LogPoint.three_pairs) [2])
    by (repeat constructor; cbn; lia).
  assert (Hbad : ~ in_range LogPoint.three_pairs 7)
    by (unfold in_range; cbn; lia).
  split; [split; [exact Hl | split; [exact Hpre | exact Hbad]]|].
  exact (binding_value_reports_first_bad_index 1 LogPoint.zeros32
           LogPoint.three_pairs [2] 7 [0] Hl Hpre Hbad).
Defined.

Lemma group_commitment_error_precedence_witness :
  (one_byte_index LogPoint.three_pairs 1 /\
   Forall (in_range LogPoint.three_pairs) [1; 2] /\
   ~ in_range LogPoint.three_pairs 0) /\
  group_commitment LogPoint.zeros32 LogPoint.three_pairs [1; 2; 0; 3] =
  Raise (ValueError_nonce_commitments 0).
Proof.
  assert (Hfirst : one_byte_index LogPoint.three_pairs 1)
    by (unfold one_byte_index, in_range; cbn; lia).
  assert (Hbad : ~ in_range LogPoint.three_pairs 0)
    by (unfold in_range; cbn; lia).
  split;
    [split; [exact Hfirst|split; [exact three_pairs_12_in_range|exact Hbad]]
    |].
  pose proof (group_commitment_error_precedence LogPoint.zeros32
                LogPoint.three_pairs 1 [2; 0; 3]) as (_ & _ & Hthird & _).
  exact (Hthird Hfirst [1; 2] 0 [3] eq_refl three_pairs_12_in_range Hbad).
Defined.

Lemma group_commitment_returns_iff_witness :
  Forall (one_byte_index LogPoint.three_pairs) [3; 1] /\
  group_commitment LogPoint.zeros32 LogPoint.three_pairs [3; 1] =
  Ok (accumulate LogPoint.zeros32 LogPoint.three_pairs [3; 1] [3; 1]
        point_infinity).
Proof.
  assert (Hall : Forall (one_byte_index LogPoint.three_pairs) [3; 1])
    by (repeat constructor; cbn; lia).
  split; [assumption|].
  apply (proj2 (group_commitment_returns_iff LogPoint.zeros32
                  LogPoint.three_pairs [3; 1] _)).
  split; [assumption|reflexivity].
Defined.

Lemma aggregator_never_raises_IndexError_witness :
  binding_value 1 LogPoint.zeros32 LogPoint.three_pairs [4] =
    Raise (ValueError_nonce_commitments 4) /\
  (is_IndexOutOfRange (ValueError_nonce_commitments 4) = true \/
   ValueError_nonce_commitments 4 = OverflowError).
Proof.
  assert (He : binding_value 1 LogPoint.zeros32 LogPoint.three_pairs [4] =
               Raise (ValueError_nonce_commitments 4))
    by (vm_compute; reflexivity).
  split; [exact He|].
  exact (proj1 (aggregator_never_raises_IndexError 1 LogPoint.zeros32
                  LogPoint.three_pairs [4] _) He).
Defined.

Lemma four_pairs_21_in_range :
  Forall (in_range (LogPoint.three_pairs ++
                    [(LogPoint.Log 8, LogPoint.Log 9)])) [2; 1].
Proof. repeat constructor; cbn; lia. Defined.

Lemma three_pairs_21_in_range :
  Forall (in_range LogPoint.three_pairs) [2; 1].
Proof. repeat constructor; cbn; lia. Defined.

Lemma binding_value_ignores_other_pairs_witness :
  binding_value 1 LogPoint.zeros32 LogPoint.three_pairs [2; 1] =
  binding_value 1 LogPoint.zeros32
    (LogPoint.three_pairs ++ [(LogPoint.Log 8, LogPoint.Log 9)]) [2; 1].
Proof.
  exact (binding_value_ignores_other_pairs 1 LogPoint.zeros32 _ _ [2; 1]
           three_pairs_21_in_range four_pairs_21_in_range
           same_pairs_at_1_and_2).
Defined.

Lemma group_commitment_ignores_other_pairs_witness :
  group_commitment LogPoint.zeros32 LogPoint.three_pairs [2; 1] =
  group_commitment LogPoint.zeros32
    (LogPoint.three_pairs ++ [(LogPoint.Log 8, LogPoint.Log 9)]) [2; 1].
Proof.
  exact (group_commitment_ignores_other_pairs LogPoint.zeros32 _ _ [2; 1]
           three_pairs_21_in_range four_pairs_21_in_range
           same_pairs_at_1_and_2).
Defined.

Lemma binding_value_message_not_framed_witness :
  Forall (in_range LogPoint.three_pairs) [2; 1] /\
  binding_value 1 LogPoint.zeros32 LogPoint.three_pairs [2; 1] =
  binding_value 1
    (LogPoint.zeros32 ++ pair_block LogPoint.three_pairs 2)
    LogPoint.three_pairs [1].
Proof.
  split; [exact three_pairs_21_in_range|].
  exact (binding_value_message_not_framed 1 LogPoint.zeros32
           LogPoint.three_pairs 2 [1] three_pairs_21_in_range).
Defined.

Lemma signature_returns_iff_witness :
  well_indexed LogPoint.aggregator_12 /\
  exists s, signature LogPoint.aggregator_12 [1; 2] = Ok s.
Proof.
  split; [exact aggregator_12_well_indexed|].
  exact (proj2 (signature_returns_iff LogPoint.aggregator_12 [1; 2])
           aggregator_12_well_indexed).
Defined.

Lemma signature_share_order_irrelevant_witness :
  Permutation [1; 2; 3] [2; 1; 3] /\
  signature LogPoint.aggregator_12 [1; 2; 3] =
  signature LogPoint.aggregator_12 [2; 1; 3].
Proof.
  assert (Hperm : Permutation [1; 2; 3] [2; 1; 3]) by apply perm_swap.
  split; [exact Hperm|].
  exact (signature_share_order_irrelevant LogPoint.aggregator_12 _ _ Hperm).
Defined.

Lemma derive_shared_secret_order_irrelevant_witness :
  Permutation [LogPoint.Log 1; LogPoint.Log 2; LogPoint.Log 3]
              [LogPoint.Log 2; LogPoint.Log 1; LogPoint.Log 3] /\
  derive_shared_secret [LogPoint.Log 1; LogPoint.Log 2; LogPoint.Log 3] =
  derive_shared_secret [LogPoint.Log 2; LogPoint.Log 1; LogPoint.Log 3].
Proof.
  assert (Hperm :
    Permutation [LogPoint.Log 1; LogPoint.Log 2; LogPoint.Log 3]
                [LogPoint.Log 2; LogPoint.Log 1; LogPoint.Log 3])
    by apply perm_swap.
  split; [exact Hperm|].
  exact (derive_shared_secret_order_irrelevant _ _ Hperm).
Defined.

#[global] Instance IntPoint_abelian : AbelianAdd IntPoint.t.
Proof.
  split.
  - intros [p] [r]. cbn. f_equal. lia.
  - intros [p] [r] [s]. cbn. f_equal. lia.
Defined.

Lemma IntPoint_identity_neutral :
  forall P : IntPoint.t, (point_infinity + P)%point = P.
Proof. intros [p]. reflexivity. Defined.

Lemma derive_shared_secret_of_batches_witness :
  (forall P : IntPoint.t, (point_infinity + P)%point = P) /\
  derive_shared_secret
    ([IntPoint.Int 5; IntPoint.Int 7] ++ [IntPoint.Int (-3)]) =
  (derive_shared_secret [IntPoint.Int 5; IntPoint.Int 7] +
   derive_shared_secret [IntPoint.Int (-3)])%point.
Proof.
  split; [exact IntPoint_identity_neutral|].
  exact (derive_shared_secret_of_batches _ _ IntPoint_identity_neutral).
Defined.
